(** * ModGuardBackend: a shallow embedding of [index.js]

    The service receives a text, asks an external classifier for six
    moderation scores, normalises them, formats them as an ordered list of
    flag records, stores a summary row and answers the caller.

    JavaScript numbers are IEEE 754 binary64 values.  They are modelled
    with [spec_float] (precision 53, maximal exponent 1024), the executable
    specification of binary floating point of the Standard Library, so
    that multiplication, division and rounding are the ones of the engine.
    Comparisons are taken on the exact rational value of a number.

    JavaScript strings are modelled as byte strings. *)

From Stdlib Require Import ZArith QArith Bool List String Ascii Lia.
From Stdlib Require Import Floats.SpecFloat.
From stdpp Require Import gmap strings list.

Local Open Scope Z_scope.

(** ** Numbers *)

Module Number.

Definition prec : Z := 53.
Definition emax : Z := 1024.

Abbreviation number := spec_float.

Definition NaN : number := S754_nan.
Definition Infinity : number := S754_infinity false.

(** The integer [n] as a number ([n] is rounded when it needs more than 53
    bits). *)
Definition of_Z (n : Z) : number := binary_normalize prec emax n 0 false.

Definition mul : number -> number -> number := SFmul prec emax.
Definition div : number -> number -> number := SFdiv prec emax.

(** The number denoted by the decimal numeral [M * 10 ^ E] with sign [neg]:
    the binary64 value nearest to it, ties to even.  This is the value of a
    numeric literal of the source ([0.7]), of a JSON number and of the
    digits read by [parseFloat]. *)
Definition of_decimal (neg : bool) (M E : Z) : number :=
  match M with
  | Zpos m =>
      if 0 <=? E
      then binary_normalize prec emax
             (if neg then - (M * 10 ^ E) else M * 10 ^ E) 0 false
      else let '(q, e, l) :=
             SFdiv_core_binary prec emax M 0 (10 ^ (- E)) 0 in
           binary_round_aux prec emax neg q e l
  | _ => S754_zero neg
  end.

(** Extended rationals: the mathematical value of a number that is not NaN. *)
Inductive xreal : Type :=
| XNegInf
| XFin (q : Q)
| XPosInf.

(** [m * 2 ^ e] as a rational. *)
Definition mag (m : positive) (e : Z) : Q :=
  match e with
  | Z0 => inject_Z (Zpos m)
  | Zpos k => inject_Z (Zpos m * 2 ^ Zpos k)
  | Zneg k => Qmake (Zpos m) (2 ^ k)
  end.

Definition real_of (x : number) : option xreal :=
  match x with
  | S754_nan => None
  | S754_infinity s => Some (if s then XNegInf else XPosInf)
  | S754_zero _ => Some (XFin 0%Q)
  | S754_finite s m e => Some (XFin (if s then Qopp (mag m e) else mag m e))
  end.

Definition xcompare (a b : xreal) : comparison :=
  match a, b with
  | XNegInf, XNegInf => Eq
  | XNegInf, _ => Lt
  | _, XNegInf => Gt
  | XPosInf, XPosInf => Eq
  | XPosInf, _ => Gt
  | _, XPosInf => Lt
  | XFin p, XFin q => Qcompare p q
  end.

(** Comparison of two numbers; [None] when one of them is NaN. *)
Definition compare (x y : number) : option comparison :=
  match real_of x, real_of y with
  | Some a, Some b => Some (xcompare a b)
  | _, _ => None
  end.

(** The operators [<], [>], [<=] and [>=] on numbers: false when an operand
    is NaN. *)
Definition lt (x y : number) : bool :=
  match compare x y with Some Lt => true | _ => false end.
Definition gt (x y : number) : bool :=
  match compare x y with Some Gt => true | _ => false end.
Definition le (x y : number) : bool :=
  match compare x y with Some Lt | Some Eq => true | _ => false end.
Definition ge (x y : number) : bool :=
  match compare x y with Some Gt | Some Eq => true | _ => false end.

Definition is_nan (x : number) : bool :=
  match x with S754_nan => true | _ => false end.

Definition is_neg_zero (x : number) : bool :=
  match x with S754_zero true => true | _ => false end.

(** ToBoolean on a number: [0], [-0] and NaN are falsy. *)
Definition truthy (x : number) : bool :=
  match x with
  | S754_nan | S754_zero _ => false
  | _ => true
  end.

End Number.

Import Number.

(** The numeric literals of the source. *)
Definition zero : number := of_decimal false 0 0.
Definition one : number := of_decimal false 1 0.
Definition hundred : number := of_decimal false 100 0.
Definition minus_one : number := of_decimal true 1 0.
Definition lit_0_5 : number := of_decimal false 5 (-1).
Definition lit_0_7 : number := of_decimal false 7 (-1).
Definition lit_0_3 : number := of_decimal false 3 (-1).

(** ** The [Math] object *)

Module Math.

(** [Math.max(a, b)]: NaN if an argument is NaN; [+0] is larger than [-0]. *)
Definition max (a b : number) : number :=
  match Number.compare a b with
  | None => NaN
  | Some Lt => b
  | Some Gt => a
  | Some Eq => if is_neg_zero a then b else a
  end.

(** [Math.min(a, b)]: NaN if an argument is NaN; [-0] is smaller than [+0]. *)
Definition min (a b : number) : number :=
  match Number.compare a b with
  | None => NaN
  | Some Lt => a
  | Some Gt => b
  | Some Eq => if is_neg_zero a then a else b
  end.

(** The integer [floor (x + 1/2)] for the finite number [x = (-1)^s m 2^e]. *)
Definition round_to_Z (s : bool) (m : positive) (e : Z) : Z :=
  match e with
  | Zneg k =>
      ((if s then - (2 * Zpos m) else 2 * Zpos m) + 2 ^ Zpos k)
        / 2 ^ (Zpos k + 1)
  | _ => (if s then - Zpos m else Zpos m) * 2 ^ e
  end.

(** [Math.round(x)]: the integer nearest to [x], ties towards +Infinity;
    the sign of a zero result is the sign of [x]. *)
Definition round (x : number) : number :=
  match x with
  | S754_finite s m e =>
      match round_to_Z s m e with
      | Z0 => S754_zero s
      | n => of_Z n
      end
  | _ => x
  end.

End Math.

(** ** Values *)

#[local] Set Warnings "-register-all".

Inductive JSValue : Type :=
| JUndefined
| JNull
| JBool (b : bool)
| JNum (x : number)
| JStr (s : string)
| JArr (elements : list JSValue)
| JObj (properties : list (string * JSValue)).

(** An exception value: the [Error] objects of the program are observed
    through their [message] only. *)
Record JSError : Type := Error { message : string }.

(** The outcome of an evaluation that may throw. *)
Inductive Completion (A : Type) : Type :=
| Normal (a : A)
| Throw (e : JSError).

Arguments Normal {A} a.
Arguments Throw {A} e.

Definition ToBoolean (v : JSValue) : bool :=
  match v with
  | JUndefined | JNull => false
  | JBool b => b
  | JNum x => truthy x
  | JStr EmptyString => false
  | JStr _ => true
  | JArr _ | JObj _ => true
  end.

Definition is_string (v : JSValue) : bool :=
  match v with JStr _ => true | _ => false end.

Fixpoint assoc_get (k : string) (ps : list (string * JSValue)) : option JSValue :=
  match ps with
  | [] => None
  | (k', v) :: ps' => if String.eqb k k' then Some v else assoc_get k ps'
  end.

(** Assigning a property: an existing key keeps its place. *)
Fixpoint assoc_put (k : string) (v : JSValue) (ps : list (string * JSValue))
  : list (string * JSValue) :=
  match ps with
  | [] => [(k, v)]
  | (k', v') :: ps' =>
      if String.eqb k k' then (k, v) :: ps' else (k', v') :: assoc_put k v ps'
  end.

(** [o[key]] for a key that is no array index, not ["length"] and not the
    name of a built-in method, as the six flag names are: reading it from
    [undefined] or [null] throws a TypeError, an object gives its own
    property, and every other value gives [undefined]. *)
Definition get_property (o : JSValue) (key : string) : Completion JSValue :=
  match o with
  | JUndefined | JNull =>
      Throw (Error ("Cannot read properties of undefined or null: " ++ key))
  | JObj ps =>
      Normal (match assoc_get key ps with Some v => v | None => JUndefined end)
  | _ => Normal JUndefined
  end.

(** ** Reading decimal numerals *)

Definition digit_of (c : ascii) : option Z :=
  let n := Z.of_N (N_of_ascii c) in
  if (48 <=? n) && (n <=? 57) then Some (n - 48) else None.

(** Reads the longest run of decimal digits: its value after [acc], the
    number of digits read and the rest of the string. *)
Fixpoint read_digits (s : string) (acc : Z) (cnt : Z) : Z * Z * string :=
  match s with
  | String c r =>
      match digit_of c with
      | Some d => read_digits r (10 * acc + d) (cnt + 1)
      | None => (acc, cnt, s)
      end
  | EmptyString => (acc, cnt, s)
  end.

(** An exponent part [e], [e+] or [e-] followed by at least one digit; when
    there is none the exponent is 0 and nothing is consumed. *)
Definition read_exponent (s : string) : Z * string :=
  match s with
  | String c r =>
      if (Ascii.eqb c "e" || Ascii.eqb c "E")%bool then
        let '(neg, r1) :=
          match r with
          | String "-" r' => (true, r')
          | String "+" r' => (false, r')
          | _ => (false, r)
          end in
        let '(x, n, r2) := read_digits r1 0 0 in
        if 0 <? n then ((if neg then - x else x), r2) else (0, s)
      else (0, s)
  | EmptyString => (0, s)
  end.

(** The white space and line terminators that [parseFloat] skips, as
    they are encoded in UTF-8: TAB, LF, VT, FF, CR and SP; U+00A0; U+1680;
    U+2000 to U+200A, U+2028, U+2029 and U+202F; U+205F; U+3000; U+FEFF.
    The result is the string after one such character. *)
Definition js_space (s : string) : option string :=
  match s with
  | String c r =>
      let n := N_of_ascii c in
      if ((9 <=? n) && (n <=? 13) || (n =? 32))%N then Some r
      else
        match r with
        | String c1 r1 =>
            let n1 := N_of_ascii c1 in
            if ((n =? 194) && (n1 =? 160))%N then Some r1
            else
              match r1 with
              | String c2 r2 =>
                  let n2 := N_of_ascii c2 in
                  if ((n =? 225) && (n1 =? 154) && (n2 =? 128)
                      || (n =? 226) && (n1 =? 128)
                         && ((128 <=? n2) && (n2 <=? 138)
                             || (n2 =? 168) || (n2 =? 169) || (n2 =? 175))
                      || (n =? 226) && (n1 =? 129) && (n2 =? 159)
                      || (n =? 227) && (n1 =? 128) && (n2 =? 128)
                      || (n =? 239) && (n1 =? 187) && (n2 =? 191))%N
                  then Some r2
                  else None
              | EmptyString => None
              end
        | EmptyString => None
        end
  | EmptyString => None
  end.

(** Skips leading white space; [fuel] is the length of the string at
    least. *)
Fixpoint skip_js_space (fuel : nat) (s : string) : string :=
  match fuel with
  | O => s
  | S fuel' =>
      match js_space s with
      | Some r => skip_js_space fuel' r
      | None => s
      end
  end.

Definition read_sign (s : string) : bool * string :=
  match s with
  | String "-" r => (true, r)
  | String "+" r => (false, r)
  | _ => (false, s)
  end.

(** [parseFloat] applied to a string: leading white space is skipped and
    the longest prefix that is a decimal literal is converted; NaN when
    there is none. *)
Definition parseFloat_string (s : string) : number :=
  let '(neg, r) := read_sign (skip_js_space (String.length s) s) in
  if String.prefix "Infinity" r then S754_infinity neg
  else
    let '(ip, n_ip, r1) := read_digits r 0 0 in
    let '(M, n_fp, r2) :=
      match r1 with
      | String "." r' =>
          let '(M, n_fp, r2) := read_digits r' ip 0 in (M, n_fp, r2)
      | _ => (ip, 0, r1)
      end in
    if (n_ip + n_fp =? 0) then NaN
    else
      let '(x, _) := read_exponent r2 in
      of_decimal neg M (x - n_fp).

(** [ToString(v)] completes normally, for a value built by [JSON.parse].
    An object is converted by its [toString] method and then by its
    [valueOf] method.  The inherited [toString] gives ["[object Object]"];
    but an own property named [toString] hides it and is not callable (a
    JSON value never is), and [valueOf] does not give a primitive value:
    the conversion throws a TypeError.  An array is converted by joining
    the conversions of its elements, the empty string for [null] and
    [undefined]. *)
Fixpoint ToString_completes (v : JSValue) : bool :=
  match v with
  | JObj ps =>
      match assoc_get "toString" ps with Some _ => false | None => true end
  | JArr l => forallb ToString_completes l
  | _ => true
  end.

(** The number that [parseFloat] reads in [ToString(v)] when the
    conversion completes.
    - [undefined], [null], booleans and objects give a string that starts
      with no digit: NaN;
    - a number is printed so that it reads back as itself, [-0] as ["0"];
    - an array prints its elements separated by commas, so that the
      result is the one of its first element, NaN when it has none. *)
Fixpoint parseFloat_value (v : JSValue) : number :=
  match v with
  | JNum x => if is_neg_zero x then S754_zero false else x
  | JStr s => parseFloat_string s
  | JArr (x :: _) => parseFloat_value x
  | _ => NaN
  end.

(** [parseFloat(v)] *)
Definition parseFloat (v : JSValue) : Completion number :=
  if ToString_completes v then Normal (parseFloat_value v)
  else Throw (Error "Cannot convert object to primitive value").

Definition isNaN (x : number) : bool := is_nan x.

(** ** [JSON.parse] *)

Module JSON.

Definition is_ws (c : ascii) : bool :=
  let n := N_of_ascii c in
  ((n =? 32) || (n =? 9) || (n =? 10) || (n =? 13))%N.

Fixpoint skip_ws (s : string) : string :=
  match s with
  | String c r => if is_ws c then skip_ws r else s
  | EmptyString => s
  end.

Definition hex_of (c : ascii) : option N :=
  let n := N_of_ascii c in
  if ((48 <=? n) && (n <=? 57))%N then Some (n - 48)%N
  else if ((97 <=? n) && (n <=? 102))%N then Some (n - 87)%N
  else if ((65 <=? n) && (n <=? 70))%N then Some (n - 55)%N
  else None.

(** The bytes of a 16-bit code unit (UTF-8 of the code point it denotes). *)
Definition bytes_of_code_unit (u : N) : string :=
  if (u <? 128)%N then String (ascii_of_N u) EmptyString
  else if (u <? 2048)%N then
    String (ascii_of_N (192 + u / 64))
      (String (ascii_of_N (128 + u mod 64)) EmptyString)
  else
    String (ascii_of_N (224 + u / 4096))
      (String (ascii_of_N (128 + (u / 64) mod 64))
         (String (ascii_of_N (128 + u mod 64)) EmptyString)).

Definition escape_of (c : ascii) : option ascii :=
  match c with
  | "034"%char => Some "034"%char
  | "\"%char => Some "\"%char
  | "/"%char => Some "/"%char
  | "b"%char => Some "008"%char
  | "f"%char => Some "012"%char
  | "n"%char => Some "010"%char
  | "r"%char => Some "013"%char
  | "t"%char => Some "009"%char
  | _ => None
  end.

(** The characters of a string literal after its opening quote: the
    decoded string and what follows the closing quote. *)
Fixpoint parse_string_body (s : string) : option (string * string) :=
  match s with
  | EmptyString => None
  | String "034" r => Some (EmptyString, r)
  | String "\" (String "u" (String h1 (String h2 (String h3 (String h4 r))))) =>
      match hex_of h1, hex_of h2, hex_of h3, hex_of h4, parse_string_body r with
      | Some a, Some b, Some c, Some d, Some (str, r') =>
          Some ((bytes_of_code_unit (4096 * a + 256 * b + 16 * c + d) ++ str)%string, r')
      | _, _, _, _, _ => None
      end
  | String "\" (String e r) =>
      match escape_of e, parse_string_body r with
      | Some c, Some (str, r') => Some (String c str, r')
      | _, _ => None
      end
  | String c r =>
      if (N_of_ascii c <? 32)%N then None
      else match parse_string_body r with
           | Some (str, r') => Some (String c str, r')
           | None => None
           end
  end.

Definition strip_prefix (p s : string) : option string :=
  if String.prefix p s
  then Some (String.substring (String.length p)
               (String.length s - String.length p) s)
  else None.

(** A number: [-? int frac? exp?]; an integer part of several digits does
    not start with 0 and a fraction has at least one digit. *)
Definition parse_number (s : string) : option (number * string) :=
  let '(neg, r) :=
    match s with String "-" r => (true, r) | _ => (false, s) end in
  let '(ip, n_ip, r1) := read_digits r 0 0 in
  if (n_ip =? 0) || (String.prefix "0" r && (1 <? n_ip)) then None
  else
    match r1 with
    | String "." r' =>
        let '(M, n_fp, r2) := read_digits r' ip 0 in
        if n_fp =? 0 then None
        else let '(x, r3) := read_exponent r2 in
             Some (of_decimal neg M (x - n_fp), r3)
    | _ =>
        let '(x, r3) := read_exponent r1 in
        Some (of_decimal neg ip x, r3)
    end.

(** [s] without its first character when that is [c]. *)
Definition expect (c : ascii) (s : string) : option string :=
  match s with
  | String c' r => if Ascii.eqb c' c then Some r else None
  | EmptyString => None
  end.

(** Recursive descent over the text; [fuel] bounds the number of nested
    calls, and [parse] gives more than a text of that length can use. *)
Fixpoint parse_value (fuel : nat) (s : string) {struct fuel}
  : option (JSValue * string) :=
  match fuel with
  | O => None
  | S fuel' =>
      let s := skip_ws s in
      match expect "{" s with
      | Some r =>
          match expect "}" (skip_ws r) with
          | Some r' => Some (JObj [], r')
          | None => parse_members fuel' r []
          end
      | None =>
      match expect "[" s with
      | Some r =>
          match expect "]" (skip_ws r) with
          | Some r' => Some (JArr [], r')
          | None => parse_elements fuel' r []
          end
      | None =>
      match expect "034" s with
      | Some r =>
          match parse_string_body r with
          | Some (str, r') => Some (JStr str, r')
          | None => None
          end
      | None =>
      match strip_prefix "true" s with
      | Some r => Some (JBool true, r)
      | None =>
      match strip_prefix "false" s with
      | Some r => Some (JBool false, r)
      | None =>
      match strip_prefix "null" s with
      | Some r => Some (JNull, r)
      | None =>
      match parse_number s with
      | Some (x, r) => Some (JNum x, r)
      | None => None
      end end end end end end end
  end
with parse_elements (fuel : nat) (s : string) (acc : list JSValue)
  {struct fuel} : option (JSValue * string) :=
  match fuel with
  | O => None
  | S fuel' =>
      match parse_value fuel' s with
      | Some (v, r) =>
          match expect "," (skip_ws r) with
          | Some r' => parse_elements fuel' r' (acc ++ [v])
          | None =>
              match expect "]" (skip_ws r) with
              | Some r' => Some (JArr (acc ++ [v]), r')
              | None => None
              end
          end
      | None => None
      end
  end
with parse_members (fuel : nat) (s : string) (acc : list (string * JSValue))
  {struct fuel} : option (JSValue * string) :=
  match fuel with
  | O => None
  | S fuel' =>
      match expect "034" (skip_ws s) with
      | Some r =>
          match parse_string_body r with
          | Some (k, r1) =>
              match expect ":" (skip_ws r1) with
              | Some r2 =>
                  match parse_value fuel' r2 with
                  | Some (v, r3) =>
                      match expect "," (skip_ws r3) with
                      | Some r4 => parse_members fuel' r4 (assoc_put k v acc)
                      | None =>
                          match expect "}" (skip_ws r3) with
                          | Some r4 => Some (JObj (assoc_put k v acc), r4)
                          | None => None
                          end
                      end
                  | None => None
                  end
              | None => None
              end
          | None => None
          end
      | None => None
      end
  end.

Definition SyntaxError : JSError := Error "Unexpected token in JSON".

(** [JSON.parse(text)]: the value of the text, or a SyntaxError when the
    text is no JSON text. *)
Definition parse (text : string) : Completion JSValue :=
  match parse_value (2 * String.length text + 2) text with
  | Some (v, r) =>
      match skip_ws r with
      | EmptyString => Normal v
      | _ => Throw SyntaxError
      end
  | None => Throw SyntaxError
  end.

End JSON.

(** A double quote, to write JSON texts. *)
Definition dq : string := String "034" EmptyString.

Local Open Scope string_scope.

(** ** Evaluation with effects

    The program talks to three collaborators: the key store and the
    result table (Supabase), the classifier (an HTTP call through axios)
    and the random source of [Math.random].  What they answer is given by
    an environment; what the program asks them is recorded, in order, in a
    trace.  Console output is not modelled. *)

(** A flag record [{ flag_type, value }]; [flag_type] is [null] only in
    the initial accumulator of the scan for the maximum. *)
Record FlagRecord : Type := {
  flag_type : option string;
  value : number
}.

(** The object stored under [flags]. *)
Record FormattedFlags : Type := {
  type : option string;
  score : number;
  flagged : bool
}.

(** The row given to [insert]. *)
Record StoredRow : Type := {
  api_key : JSValue;
  content : JSValue;
  content_type : string;
  flags : FormattedFlags;
  user_id : JSValue;
  status : string
}.

(** What [.eq("key", apikey).single()] resolves to, or the exception it
    is rejected with. *)
Inductive LookupOutcome : Type :=
| LookupReturns (data error : JSValue)
| LookupThrows (e : JSError).

(** What the classifier call comes to: [axios.post] is rejected (time-out,
    network error, status outside 2xx); reading
    [response.data.choices[0].message.content] throws, because a field on
    the way is missing; or the reply carries a content, which [JSON.parse]
    takes as a text. *)
Inductive ClassifierOutcome : Type :=
| RequestFails (e : JSError)
| ReplyWithoutContent (e : JSError)
| ReplyContent (aiResponse : string).

(** What [insert] resolves to ([error] is [null] on success), or the
    exception it is rejected with. *)
Inductive InsertOutcome : Type :=
| InsertReturns (data : JSValue) (error : option JSError)
| InsertThrows (e : JSError).

Record Env : Type := {
  key_store : JSValue -> LookupOutcome;
  classifier : JSValue -> ClassifierOutcome;
  random_source : nat -> number;
  result_table : StoredRow -> InsertOutcome
}.

Inductive Event : Type :=
| KeyLookup (apikey : JSValue)
| ClassifierCall (content : JSValue)
| RandomDraw
| Insert (row : StoredRow).

Record World : Type := {
  trace : list Event;
  draws : nat
}.

Definition initial_world : World := {| trace := []; draws := 0 |}.

Definition emit (ev : Event) (w : World) : World :=
  {| trace := trace w ++ [ev]; draws := draws w |}.

(** A computation that may throw and changes the world. *)
Definition IO (A : Type) : Type := World -> Completion A * World.

Definition ret {A : Type} (a : A) : IO A := fun w => (Normal a, w).

Definition throw {A : Type} (e : JSError) : IO A := fun w => (Throw e, w).

Definition bind {A B : Type} (c : IO A) (k : A -> IO B) : IO B :=
  fun w =>
    match c w with
    | (Normal a, w') => k a w'
    | (Throw e, w') => (Throw e, w')
    end.

(** [try { body } catch (error) { handler }] *)
Definition try_catch {A : Type} (body : IO A) (handler : JSError -> IO A)
  : IO A :=
  fun w =>
    match body w with
    | (Normal a, w') => (Normal a, w')
    | (Throw e, w') => handler e w'
    end.

Definition lift {A : Type} (c : Completion A) : IO A := fun w => (c, w).

Notation "'do' x <- c 'in' k" := (bind c (fun x => k))
  (at level 10, x name, c at level 100, k at level 200).

(** The same for code without effects. *)
Definition cbind {A B : Type} (c : Completion A) (k : A -> Completion B)
  : Completion B :=
  match c with
  | Normal a => k a
  | Throw e => Throw e
  end.

Definition ctry {A : Type} (body : Completion A)
  (handler : JSError -> Completion A) : Completion A :=
  match body with
  | Normal a => Normal a
  | Throw e => handler e
  end.

(** [list.forEach(f)] for a callback that updates an accumulator and may
    throw. *)
Fixpoint forEach {A S : Type} (f : S -> A -> Completion S) (l : list A)
  (acc : S) : Completion S :=
  match l with
  | [] => Normal acc
  | x :: l' => cbind (f acc x) (forEach f l')
  end.

(** The same for a callback with effects that does not throw. *)
Fixpoint forEachIO {A S : Type} (f : S -> A -> IO S) (l : list A) (acc : S)
  : IO S :=
  match l with
  | [] => ret acc
  | x :: l' => do acc' <- f acc x in forEachIO f l' acc'
  end.

(** [Math.random()] *)
Definition Math_random (env : Env) : IO number :=
  fun w =>
    (Normal (random_source env (draws w)),
     {| trace := trace w ++ [RandomDraw]; draws := S (draws w) |}).

(** ** The program *)

Definition FLAG_TYPES : list string :=
  ["toxicity"; "harassment"; "hate-speech"; "sexual"; "violence"; "spam"].

(** Reading [scores[flag]] from an object whose properties are numbers;
    a missing property is [undefined]. *)
Definition read_number (scores : gmap string number) (flag : string)
  : number :=
  match scores !! flag with
  | Some x => x
  | None => NaN
  end.

(** The callback of the [forEach] of [parseAndValidateScores]. *)
Definition validate_flag (scores : JSValue) (validated : gmap string number)
  (flag : string) : Completion (gmap string number) :=
  cbind (get_property scores flag) (fun raw =>
  cbind (parseFloat raw) (fun value =>
    let value := if isNaN value then zero else value in
    let validated := <[flag := Math.max zero (Math.min one value)]> validated in
    let validated :=
      <[flag := div (Math.round (mul (read_number validated flag) hundred))
                  hundred]> validated in
    Normal validated)).

Definition parseAndValidateScores (aiResponse : string)
  : Completion (gmap string number) :=
  ctry
    (cbind (JSON.parse aiResponse) (fun scores =>
       forEach (validate_flag scores) FLAG_TYPES ∅))
    (fun e => Throw (Error "Invalid AI response format")).

(** The callback of the [forEach] of [generateRandomScores]. *)
Definition random_flag (env : Env) (scores : gmap string number)
  (flag : string) : IO (gmap string number) :=
  do r <- Math_random env in
  ret (<[flag := div (Math.round (mul r hundred)) hundred]> scores).

Definition generateRandomScores (env : Env) : IO (gmap string number) :=
  forEachIO (random_flag env) FLAG_TYPES ∅.

(** [scores[flagType] || 0] *)
Definition or_zero (v : option number) : number :=
  match v with
  | Some x => if truthy x then x else zero
  | None => zero
  end.

Definition formatResponse (scores : gmap string number) : list FlagRecord :=
  map (fun flagType =>
         {| flag_type := Some flagType;
            value := or_zero (scores !! flagType) |})
    FLAG_TYPES.

(** The callback and the initial value of the [reduce] of
    [storeResultsInSupabase]. *)
Definition pick_max (max current : FlagRecord) : FlagRecord :=
  if gt (value current) (value max) then current else max.

Definition no_flag : FlagRecord :=
  {| flag_type := None; value := minus_one |}.

Definition maxFlag (results : list FlagRecord) : FlagRecord :=
  fold_left pick_max results no_flag.

(** The [if]/[else if]/[else] that sets [status]. *)
Definition status_of (v : number) : string :=
  if ge v lit_0_7 then "flagged"
  else if lt v lit_0_3 then "clean"
  else "borderline".

Definition row_of (apikey content : JSValue) (results : list FlagRecord)
  : StoredRow :=
  let maxFlag := maxFlag results in
  let formattedFlags :=
    {| type := flag_type maxFlag;
       score := value maxFlag;
       flagged := ge (value maxFlag) lit_0_5 |} in
  let status := status_of (value maxFlag) in
  {| api_key := apikey;
     content := content;
     content_type := "text";
     flags := formattedFlags;
     user_id := JNull;
     status := status |}.

(** [supabase.from("request_data").insert([row])] *)
Definition supabase_insert (env : Env) (row : StoredRow) : IO InsertOutcome :=
  fun w =>
    match result_table env row with
    | InsertThrows e => (Throw e, emit (Insert row) w)
    | r => (Normal r, emit (Insert row) w)
    end.

Definition storeResultsInSupabase (env : Env) (apikey content : JSValue)
  (results : list FlagRecord) : IO JSValue :=
  try_catch
    (let row := row_of apikey content results in
     do r <- supabase_insert env row in
     match r with
     | InsertReturns data (Some error) => throw error
     | InsertReturns data None => ret data
     | InsertThrows e => throw e
     end)
    (fun error => throw error).

(** [supabase.from("api_key").select("*").eq("key", apikey).single()] *)
Definition supabase_single (env : Env) (apikey : JSValue)
  : IO (JSValue * JSValue) :=
  fun w =>
    match key_store env apikey with
    | LookupReturns data error => (Normal (data, error), emit (KeyLookup apikey) w)
    | LookupThrows e => (Throw e, emit (KeyLookup apikey) w)
    end.

Definition verifyApiKey (env : Env) (apikey : JSValue) : IO bool :=
  try_catch
    (do r <- supabase_single env apikey in
     let '(data, error) := r in
     ret (ToBoolean data && negb (ToBoolean error)))
    (fun error => ret false).

(** [axios.post(...)] followed by
    [response.data.choices[0].message.content] *)
Definition classifier_reply (env : Env) (content : JSValue) : IO string :=
  fun w =>
    match classifier env content with
    | RequestFails e => (Throw e, emit (ClassifierCall content) w)
    | ReplyWithoutContent e => (Throw e, emit (ClassifierCall content) w)
    | ReplyContent aiResponse =>
        (Normal aiResponse, emit (ClassifierCall content) w)
    end.

Definition analyzeContentWithAI (env : Env) (content : JSValue)
  : IO (gmap string number) :=
  try_catch
    (do aiResponse <- classifier_reply env content in
     lift (parseAndValidateScores aiResponse))
    (fun error => throw error).

(** The body of a request as the JSON body parser leaves it, after
    [const { content, apikey } = req.body]; a field that is absent is
    [undefined]. *)
Record Request : Type := {
  req_content : JSValue;
  req_apikey : JSValue
}.

Inductive Body : Type :=
| FlagList (records : list FlagRecord)
| ErrorBody (error : string) (details : option string).

Record Response : Type := {
  res_status : Z;
  res_body : Body
}.

Definition respond (code : Z) (b : Body) : IO Response :=
  ret {| res_status := code; res_body := b |}.

Definition invalid_content (content : JSValue) : bool :=
  negb (ToBoolean content) || negb (is_string content).

(** [app.post("/moderate", ...)] *)
Definition post_moderate (env : Env) (req : Request) : IO Response :=
  try_catch
    (let content := req_content req in
     let apikey := req_apikey req in
     if invalid_content content
     then respond 400 (ErrorBody "Valid content string is required" None)
     else if negb (ToBoolean apikey)
     then respond 401 (ErrorBody "API key is required" None)
     else if invalid_content content
     then respond 400 (ErrorBody "Valid content string is required" None)
     else
       do isValidKey <- verifyApiKey env apikey in
       if negb isValidKey
       then respond 403 (ErrorBody "Invalid API key" None)
       else
         do scores <- try_catch (analyzeContentWithAI env content)
                     (fun error => generateRandomScores env) in
         let response := formatResponse scores in
         do stored <- storeResultsInSupabase env apikey content response in
         respond 200 (FlagList response))
    (fun error =>
       respond 500 (ErrorBody "Internal server error" (Some (message error)))).

(** [app.post("/test/moderate", ...)] *)
Definition post_test_moderate (env : Env) (req : Request) : IO Response :=
  try_catch
    (let content := req_content req in
     if invalid_content content
     then respond 400 (ErrorBody "Valid content string is required" None)
     else if invalid_content content
     then respond 400 (ErrorBody "Valid content string is required" None)
     else
       do scores <- try_catch (analyzeContentWithAI env content)
                   (fun error => generateRandomScores env) in
       let response := formatResponse scores in
       respond 200 (FlagList response))
    (fun error =>
       respond 500 (ErrorBody "Internal server error" (Some (message error)))).

(** * Specification

    The vocabulary of the statements: the properties the claims speak of,
    the functions that the specification describes in words, what the
    collaborators answer, and sample inputs. *)

Local Open Scope Z_scope.

#[local] Instance spec_float_eq_dec : EqDecision spec_float.
Proof. solve_decision. Defined.

(** ** Numbers of the unit interval *)

(** [m * 2 ^ e <= 100], on integers. *)
Definition le100 (m e : Z) : Prop :=
  m * 2 ^ Z.max 0 e <= 100 * 2 ^ Z.max 0 (- e).

(** A right shift has lost a non-zero bit. *)
Definition inexact (r : shr_record) : bool := shr_r r || shr_s r.

(** [+0], or a positive finite number of value at most 1. *)
Definition unit_interval (c : number) : Prop :=
  match c with
  | S754_zero false => True
  | S754_finite false m e => (mag m e <= 1)%Q
  | _ => False
  end.

(** The number written [n / 100] with two decimals, [0 <= n <= 100]. *)
Definition two_decimals (x : number) : Prop :=
  exists n : Z, 0 <= n <= 100 /\ x = of_decimal false n (-2).

(** What holds of each of the 101 numbers [n / 100]: it is the quotient of
    [n] by 100, it lies in [0,1], and it compares with the thresholds 0.7,
    0.3 and 0.5 as [n] does with 70, 30 and 50. *)
Definition grid_ok (n : Z) : bool :=
  bool_decide (div (of_Z n) hundred = of_decimal false n (-2))
  && le zero (of_decimal false n (-2))
  && le (of_decimal false n (-2)) one
  && bool_decide (ge (of_decimal false n (-2)) lit_0_7 = (70 <=? n))
  && bool_decide (lt (of_decimal false n (-2)) lit_0_3 = (n <? 30))
  && bool_decide (ge (of_decimal false n (-2)) lit_0_5 = (50 <=? n))
  && negb (is_nan (of_decimal false n (-2)))
  && bool_decide (truthy (of_decimal false n (-2)) = negb (n =? 0)).

(** What [Math.random] returns: a number with positive sign, at least 0
    and less than 1. *)
Definition random_draw (r : number) : Prop :=
  is_neg_zero r = false /\ le zero r = true /\ lt r one = true.

(** ** The normalizer, in the words of the specification *)

(** Rounding to two decimals, as the program writes it. *)
Definition round2 (x : number) : number :=
  div (Math.round (mul x hundred)) hundred.

(** The normalized score of a raw value: coerce to a number, 0 for NaN,
    clamp to [0,1], round to two decimals. *)
Definition spec_normalize (raw : JSValue) : number :=
  let coerced := parseFloat_value raw in
  let coerced := if isNaN coerced then zero else coerced in
  let clamped := Math.max zero (Math.min one coerced) in
  round2 clamped.

(** The values whose properties can be read. *)
Definition readable (v : JSValue) : bool :=
  match v with
  | JUndefined | JNull => false
  | _ => true
  end.

Definition property_of (v : JSValue) (key : string) : JSValue :=
  match v with
  | JObj ps => default JUndefined (assoc_get key ps)
  | _ => JUndefined
  end.

(** Every flag of [flags] has a value in [v] that can be converted to a
    string. *)
Definition convertible (v : JSValue) (flags : list string) : bool :=
  forallb (fun flag => ToString_completes (property_of v flag)) flags.

(** The mapping that assigns its normalized score to each flag of
    [flags], over [acc]. *)
Definition normalized_from (v : JSValue) (flags : list string)
  (acc : gmap string number) : gmap string number :=
  fold_left (fun m flag => <[flag := spec_normalize (property_of v flag)]> m)
    flags acc.

(** The score that the normalizer gives to [flag] for the text
    [aiResponse], when it gives one. *)
Definition normalized_score (aiResponse flag : string) : option number :=
  match parseAndValidateScores aiResponse with
  | Normal validated => validated !! flag
  | Throw _ => None
  end.

(** A score mapping: every entry is a number of [0,1]. *)
Definition score_mapping (scores : gmap string number) : Prop :=
  map_Forall (fun _ v => le zero v = true /\ le v one = true) scores.

(** ** Flag records *)

Definition record (flag : string) (v : number) : FlagRecord :=
  {| flag_type := Some flag; value := v |}.

(** What the scan for the maximum returns: the initial accumulator when no
    record is above -1, and otherwise the first record whose value no
    other record exceeds. *)
Definition dominant (results : list FlagRecord) (best : FlagRecord) : Prop :=
  (best = no_flag /\ forall r, r ∈ results -> gt (value r) minus_one = false)
  \/
  (exists before after,
      results = (before ++ best :: after)%list /\
      gt (value best) minus_one = true /\
      (forall x, x ∈ before -> ge (value x) (value best) = false) /\
      (forall x, x ∈ after -> gt (value x) (value best) = false)).

(** ** Requests *)

(** The values that [!v] takes for absent: [undefined], [null], [false],
    [0], [-0], NaN and the empty string. *)
Definition falsy (v : JSValue) : Prop :=
  match v with
  | JUndefined | JNull | JBool false | JStr EmptyString => True
  | JNum (S754_zero _) | JNum S754_nan => True
  | _ => False
  end.

(** ** The answers of the collaborators *)

(** [verifyApiKey] accepts the key. *)
Definition key_accepted (env : Env) (apikey : JSValue) : bool :=
  match key_store env apikey with
  | LookupReturns data error => ToBoolean data && negb (ToBoolean error)
  | LookupThrows _ => false
  end.

(** The scores of the classifier, or the exception of the call. *)
Definition classified (env : Env) (content : JSValue)
  : Completion (gmap string number) :=
  match classifier env content with
  | RequestFails e | ReplyWithoutContent e => Throw e
  | ReplyContent aiResponse => parseAndValidateScores aiResponse
  end.

(** The data of the insert, or the error it reports or is rejected with. *)
Definition stored (env : Env) (row : StoredRow) : Completion JSValue :=
  match result_table env row with
  | InsertReturns data None => Normal data
  | InsertReturns _ (Some e) | InsertThrows e => Throw e
  end.

(** ** Sample inputs *)

(** The JSON text [{"key": v}]. *)
Definition json_object1 (key v : string) : string :=
  "{" ++ dq ++ key ++ dq ++ ": " ++ v ++ "}".

(** The JSON text [{"toxicity": "abc", "spam": 0.857}]. *)
Definition sample_payload : string :=
  "{" ++ dq ++ "toxicity" ++ dq ++ ": " ++ dq ++ "abc" ++ dq ++ ", "
      ++ dq ++ "spam" ++ dq ++ ": 0.857}".

(** The JSON text [{"toxicity": {"toString": 1}}]. *)
Definition odd_payload : string :=
  json_object1 "toxicity" (json_object1 "toString" "1").

(** A key store that knows one key, a classifier that cannot be reached,
    a random source that alternates between 0.254 and 0.8, and a result
    table that accepts every row. *)
Definition sample_env : Env :=
  {| key_store := fun apikey =>
       match apikey with
       | JStr "good-key" => LookupReturns (JObj [("key", JStr "good-key")]) JNull
       | _ => LookupReturns JNull (JObj [("message", JStr "no rows")])
       end;
     classifier := fun _ => RequestFails (Error "timeout of 5000ms exceeded");
     random_source := fun n =>
       if Nat.even n then of_decimal false 254 (-3) else of_decimal false 8 (-1);
     result_table := fun _ => InsertReturns JNull None |}.

Definition sample_scores : gmap string number :=
  <["toxicity" := of_decimal false 8 (-1)]>
    (<["spam" := of_decimal false 8 (-1)]>
       (<["violence" := of_decimal false 25 (-2)]> ∅)).

(** ** The scores of a request *)

(** The mapping of the fallback generator when [d] draws have been made
    before. *)
Definition fallback_scores (env : Env) (d : nat) : gmap string number :=
  <["spam" := round2 (random_source env (5 + d))]>
    (<["violence" := round2 (random_source env (4 + d))]>
       (<["sexual" := round2 (random_source env (3 + d))]>
          (<["hate-speech" := round2 (random_source env (2 + d))]>
             (<["harassment" := round2 (random_source env (1 + d))]>
                (<["toxicity" := round2 (random_source env d)]> ∅))))).

(** The world after the six draws of the fallback generator. *)
Definition after_fallback (w : World) : World :=
  {| trace := trace w ++ replicate 6 RandomDraw; draws := 6 + draws w |}.

(** The scores that a handler formats, and the world in which it goes on:
    the scores of the classifier, or those of the fallback generator when
    the classifier call throws. *)
Definition scores_used (env : Env) (content : JSValue) (w : World)
  : gmap string number * World :=
  match classified env content with
  | Normal scores => (scores, emit (ClassifierCall content) w)
  | Throw _ =>
      (fallback_scores env (draws w),
       after_fallback (emit (ClassifierCall content) w))
  end.


(** The classifier of the sample environment replaced by one that answers
    the sample payload. *)
Definition answering_env : Env :=
  {| key_store := key_store sample_env;
     classifier := fun _ => ReplyContent sample_payload;
     random_source := random_source sample_env;
     result_table := result_table sample_env |}.

(** The key store of the sample environment replaced by one that cannot be
    reached. *)
Definition unreachable_store_env : Env :=
  {| key_store := fun _ => LookupThrows (Error "fetch failed");
     classifier := classifier sample_env;
     random_source := random_source sample_env;
     result_table := result_table sample_env |}.

(** The result table of the sample environment replaced by one that
    reports an error. *)
Definition failing_table_env : Env :=
  {| key_store := key_store sample_env;
     classifier := classifier sample_env;
     random_source := random_source sample_env;
     result_table := fun _ =>
       InsertReturns JNull (Some (Error "permission denied for table")) |}.

Definition sample_request : Request :=
  {| req_content := JStr "hello"; req_apikey := JStr "good-key" |}.

(** The normalizer leaves the number [n / 100] as it is. *)
Definition grid_fixed (n : Z) : bool :=
  bool_decide (spec_normalize (JNum (of_decimal false n (-2)))
               = of_decimal false n (-2)).

(** ** Failure of the classifier call *)



(** * Proofs *)

(** ** Rounding to 53 bits *)

Lemma iter_pos_nat {A : Type} (f : A -> A) (p : positive) (x : A) :
  SpecFloat.iter_pos f p x = Nat.iter (Pos.to_nat p) f x.
Proof.
  revert x. induction p as [p IH | p IH |]; intros x; cbn [SpecFloat.iter_pos].
  - rewrite !IH, Pos2Nat.inj_xI.
    replace (S (2 * Pos.to_nat p)) with (Pos.to_nat p + (Pos.to_nat p + 1))%nat by lia.
    rewrite !Nat.iter_add. reflexivity.
  - rewrite !IH, Pos2Nat.inj_xO.
    replace (2 * Pos.to_nat p)%nat with (Pos.to_nat p + Pos.to_nat p)%nat by lia.
    rewrite Nat.iter_add. reflexivity.
  - reflexivity.
Qed.

Lemma shr_1_spec (r : shr_record) :
  0 <= shr_m r ->
  0 <= shr_m (shr_1 r) /\
  2 * shr_m (shr_1 r) <= shr_m r /\
  (inexact (shr_1 r) = true -> inexact r = true \/ 2 * shr_m (shr_1 r) < shr_m r).
Proof.
  destruct r as [m r s]. unfold inexact. cbn [shr_m shr_r shr_s].
  intros Hm. destruct m as [| [p | p |] | p]; cbn [shr_1 shr_m shr_r shr_s]; try lia.
  - split; [lia | split; [lia |]]. intros H. left. exact H.
  - split; [lia | split; [lia |]]. intros H. left. exact H.
Qed.

Lemma shr_iter_spec (k : nat) (r : shr_record) :
  0 <= shr_m r ->
  0 <= shr_m (Nat.iter k shr_1 r) /\
  2 ^ Z.of_nat k * shr_m (Nat.iter k shr_1 r) <= shr_m r /\
  (inexact (Nat.iter k shr_1 r) = true ->
   inexact r = true \/ 2 ^ Z.of_nat k * shr_m (Nat.iter k shr_1 r) < shr_m r).
Proof.
  intros Hm. induction k as [| k IH].
  - change (Nat.iter 0 shr_1 r) with r. change (Z.of_nat 0) with 0. rewrite Z.pow_0_r. split; [lia | split; [lia | tauto]].
  - change (Nat.iter (S k) shr_1 r) with (shr_1 (Nat.iter k shr_1 r)).
    destruct IH as (H0 & Hle & Hin).
    destruct (shr_1_spec _ H0) as (H0' & Hle' & Hin').
    rewrite Nat2Z.inj_succ, Z.pow_succ_r by lia.
    split; [exact H0' | split; [nia |]].
    intros Hx. destruct (Hin' Hx) as [Hy | Hy].
    + destruct (Hin Hy) as [Hz | Hz]; [left; exact Hz | right; nia].
    + right. nia.
Qed.

Lemma shr_spec (r : shr_record) (e n : Z) :
  0 <= shr_m r ->
  let '(r', e') := shr r e n in
  e' = e + Z.max 0 n /\
  0 <= shr_m r' /\
  2 ^ Z.max 0 n * shr_m r' <= shr_m r /\
  (inexact r' = true -> inexact r = true \/ 2 ^ Z.max 0 n * shr_m r' < shr_m r).
Proof.
  intros Hm. destruct n as [| p | p]; cbn [shr].
  - change (Z.max 0 0) with 0. rewrite Z.pow_0_r. repeat split; try lia. tauto.
  - rewrite iter_pos_nat. replace (Z.max 0 (Z.pos p)) with (Z.of_nat (Pos.to_nat p)) by lia.
    destruct (shr_iter_spec (Pos.to_nat p) r Hm) as (H0 & Hle & Hin).
    repeat split; try assumption. lia.
  - change (Z.max 0 (Z.neg p)) with 0. rewrite Z.pow_0_r. repeat split; try lia. tauto.
Qed.

Lemma rne_spec (r : shr_record) :
  let m' := round_nearest_even (shr_m r) (loc_of_shr_record r) in
  shr_m r <= m' <= shr_m r + 1 /\ (m' <> shr_m r -> inexact r = true).
Proof.
  destruct r as [m [|] [|]]; unfold inexact;
    cbn [round_nearest_even loc_of_shr_record shr_m shr_r shr_s orb];
    try destruct (Z.even m);
    (split; [lia | intros H; try reflexivity; exfalso; apply H; reflexivity]).
Qed.

Lemma digits2_pos_spec (p : positive) :
  2 ^ (Zpos (digits2_pos p) - 1) <= Zpos p < 2 ^ Zpos (digits2_pos p).
Proof.
  induction p as [p IH | p IH |]; cbn [digits2_pos].
  - rewrite Pos2Z.inj_succ. replace (Z.succ (Z.pos (digits2_pos p)) - 1) with (Z.succ (Z.pos (digits2_pos p) - 1)) by lia.
    rewrite !Z.pow_succ_r by lia. lia.
  - rewrite Pos2Z.inj_succ. replace (Z.succ (Z.pos (digits2_pos p)) - 1) with (Z.succ (Z.pos (digits2_pos p) - 1)) by lia.
    rewrite !Z.pow_succ_r by lia. lia.
  - cbn. lia.
Qed.

Lemma pow2_pos (k : Z) : 0 <= k -> 0 < 2 ^ k.
Proof. intros H. apply Z.pow_pos_nonneg; lia. Qed.

Lemma le100_digits (m e d : Z) :
  1 <= d -> 2 ^ (d - 1) <= m -> le100 m e -> d + e <= 7.
Proof.
  unfold le100. intros Hd Hm Hle.
  destruct (Z_le_gt_dec (d + e) 7) as [H | H]; [exact H | exfalso].
  destruct (Z_le_gt_dec 0 e) as [He | He].
  - rewrite (Z.max_r 0 e), (Z.max_l 0 (- e)), Z.pow_0_r in Hle by lia.
    assert (2 ^ 7 <= 2 ^ (d - 1) * 2 ^ e).
    { rewrite <- Z.pow_add_r by lia. apply Z.pow_le_mono_r; lia. }
    assert (2 ^ (d - 1) * 2 ^ e <= m * 2 ^ e)
      by (apply Z.mul_le_mono_nonneg_r; [apply Z.pow_nonneg |]; lia).
    change (2 ^ 7) with 128 in *. lia.
  - rewrite (Z.max_l 0 e), (Z.max_r 0 (- e)), Z.pow_0_r in Hle by lia.
    assert (2 ^ (7 - e) <= 2 ^ (d - 1)) by (apply Z.pow_le_mono_r; lia).
    replace (7 - e) with (7 + - e) in * by lia.
    rewrite Z.pow_add_r in * by lia.
    pose proof (pow2_pos (- e)). change (2 ^ 7) with 128 in *. nia.
Qed.

(** Truncating a mantissa while raising the exponent keeps the bound. *)
Lemma le100_shift (m m' e k : Z) :
  0 <= k -> 0 <= m' -> 2 ^ k * m' <= m -> le100 m e -> le100 m' (e + k).
Proof.
  unfold le100. intros Hk Hm' Hle H.
  pose proof (pow2_pos k Hk) as Pk.
  destruct (Z_le_gt_dec 0 e) as [He | He].
  - rewrite (Z.max_r 0 e), (Z.max_l 0 (- e)), Z.pow_0_r in H by lia.
    rewrite (Z.max_r 0 (e + k)), (Z.max_l 0 (- (e + k))), Z.pow_0_r by lia.
    rewrite Z.pow_add_r by lia. pose proof (pow2_pos e He). nia.
  - rewrite (Z.max_l 0 e), (Z.max_r 0 (- e)), Z.pow_0_r in H by lia.
    destruct (Z_le_gt_dec 0 (e + k)) as [He' | He'].
    + rewrite (Z.max_r 0 (e + k)), (Z.max_l 0 (- (e + k))), Z.pow_0_r by lia.
      replace k with ((e + k) + - e) in Hle, Pk by lia.
      rewrite Z.pow_add_r in Hle, Pk by lia.
      pose proof (pow2_pos (e + k) He'). pose proof (pow2_pos (- e)). nia.
    + rewrite (Z.max_l 0 (e + k)), (Z.max_r 0 (- (e + k))), Z.pow_0_r by lia.
      replace (- e) with (- (e + k) + k) in H by lia.
      rewrite Z.pow_add_r in H by lia.
      pose proof (pow2_pos (- (e + k))). nia.
Qed.

(** Rounding up after an inexact truncation keeps the bound as well: 100
    is a multiple of the unit of the truncated mantissa. *)
Lemma le100_shift_up (m m' e k : Z) :
  0 <= k -> 0 <= m' -> 2 ^ k * m' < m -> e + k <= 0 ->
  le100 m e -> le100 (m' + 1) (e + k).
Proof.
  unfold le100. intros Hk Hm' Hlt He' H.
  pose proof (pow2_pos k Hk) as Pk.
  assert (He : e <= 0) by lia.
  rewrite (Z.max_l 0 e), (Z.max_r 0 (- e)), Z.pow_0_r in H by lia.
  rewrite (Z.max_l 0 (e + k)), (Z.max_r 0 (- (e + k))), Z.pow_0_r by lia.
  replace (- e) with (- (e + k) + k) in H by lia.
  rewrite Z.pow_add_r in H by lia.
  pose proof (pow2_pos (- (e + k))). nia.
Qed.

Lemma Zdigits2_nonneg (m : Z) : 0 <= Zdigits2 m.
Proof. destruct m; cbn; lia. Qed.

Lemma le100_Zdigits2 (m e : Z) : 0 <= m -> e <= 7 -> le100 m e -> Zdigits2 m + e <= 7.
Proof.
  intros Hm He H. destruct m as [| p | p]; [cbn; lia | | lia].
  cbn [Zdigits2]. pose proof (digits2_pos_spec p).
  apply (le100_digits (Zpos p)); [lia | lia | exact H].
Qed.

Lemma round_aux_le100 (M : positive) (E : Z) :
  le100 (Zpos M) E ->
  match binary_round_aux prec emax false (Zpos M) E loc_Exact with
  | S754_zero false => True
  | S754_finite false m e => le100 (Zpos m) e
  | _ => False
  end.
Proof.
  intros H.
  assert (HdE : Zpos (digits2_pos M) + E <= 7).
  { pose proof (digits2_pos_spec M). apply (le100_digits (Zpos M)); [lia | lia | exact H]. }
  unfold binary_round_aux, shr_fexp. cbn [shr_record_of_loc Zdigits2].
  set (n := fexp prec emax (Z.pos (digits2_pos M) + E) - E).
  assert (Hn : E + Z.max 0 n <= 6 /\ (0 < n -> E + n <= 0)).
  { unfold n, fexp, emin, prec, emax. lia. }
  pose proof (shr_spec {| shr_m := Zpos M; shr_r := false; shr_s := false |} E n) as S1.
  destruct (shr _ E n) as [r1 e1].
  destruct S1 as (-> & Hm1 & Hle1 & Hin1); [cbn; lia |].
  cbn [shr_m] in Hle1, Hin1.
  pose proof (rne_spec r1) as R. cbn zeta in R.
  set (m2 := round_nearest_even (shr_m r1) (loc_of_shr_record r1)) in *.
  destruct R as (Hm2 & Hne).
  assert (K : le100 m2 (E + Z.max 0 n)).
  { destruct (Z.eq_dec m2 (shr_m r1)) as [-> | Hneq].
    - apply (le100_shift (Zpos M)); [lia | lia | exact Hle1 | exact H].
    - replace m2 with (shr_m r1 + 1) by lia.
      destruct (Hin1 (Hne Hneq)) as [Hx | Hx]; [discriminate Hx |].
      destruct (Z_le_gt_dec n 0) as [Hn0 | Hn0].
      + replace (Z.max 0 n) with 0 in * by lia. rewrite Z.pow_0_r in Hx.
        apply (le100_shift (Zpos M) _ E 0); [lia | lia | rewrite Z.pow_0_r; lia | exact H].
      + apply (le100_shift_up (Zpos M)); [lia | lia | exact Hx | lia | exact H]. }
  set (e1 := E + Z.max 0 n) in *.
  pose proof (le100_Zdigits2 m2 e1 ltac:(lia) ltac:(lia) K) as Hd2.
  pose proof (Zdigits2_nonneg m2) as Hd2'.
  set (n2 := fexp prec emax (Zdigits2 m2 + e1) - e1).
  assert (Hn2 : e1 + Z.max 0 n2 <= 6).
  { unfold n2, fexp, emin, prec, emax. lia. }
  pose proof (shr_spec {| shr_m := m2; shr_r := false; shr_s := false |} e1 n2) as S2.
  destruct (shr _ e1 n2) as [r3 e3].
  destruct S2 as (-> & Hm3 & Hle3 & _); [cbn; lia |].
  cbn [shr_m] in Hle3.
  assert (K3 : le100 (shr_m r3) (e1 + Z.max 0 n2)).
  { apply (le100_shift m2); [lia | exact Hm3 | exact Hle3 | exact K]. }
  destruct (shr_m r3) as [| m3 | m3]; [exact I | | lia].
  replace (e1 + Z.max 0 n2 <=? emax - prec) with true
    by (symmetry; apply Z.leb_le; unfold emax, prec; lia).
  exact K3.
Qed.

(** ** The unit interval and the grid of two-decimal values *)

Lemma mag_pos (m : positive) (e : Z) : (0 < mag m e)%Q.
Proof.
  destruct e as [| k | k]; unfold mag, Qlt; cbn [Qnum Qden inject_Z].
  - lia.
  - pose proof (pow2_pos (Zpos k)). nia.
  - lia.
Qed.

Lemma mag_le_1 (m : positive) (e : Z) :
  (mag m e <= 1)%Q -> e <= 0 /\ Zpos m <= 2 ^ (- e).
Proof.
  destruct e as [| k | k]; unfold mag, Qle; cbn [Qnum Qden inject_Z].
  - intros H. split; [lia |]. cbn. lia.
  - intros H. exfalso. pose proof (pow2_pos (Zpos k)).
    assert (2 <= 2 ^ Zpos k).
    { change 2 with (2 ^ 1) at 1. apply Z.pow_le_mono_r; lia. }
    nia.
  - intros H. split; [lia |]. rewrite Pos2Z.inj_pow in H.
    change (- Z.neg k) with (Z.pos k). lia.
Qed.

Lemma hundred_eq : hundred = S754_finite false 7036874417766400 (-46).
Proof. reflexivity. Qed.

Lemma one_eq : one = S754_finite false 4503599627370496 (-52).
Proof. reflexivity. Qed.

Lemma zero_eq : zero = S754_zero false.
Proof. reflexivity. Qed.

Lemma mul_hundred_le100 (c : number) :
  unit_interval c ->
  match mul c hundred with
  | S754_zero false => True
  | S754_finite false m e => le100 (Zpos m) e
  | _ => False
  end.
Proof.
  rewrite hundred_eq. destruct c as [[|] | | | [|] m e]; cbn [unit_interval]; try contradiction.
  - intros _. exact I.
  - intros H. apply mag_le_1 in H. destruct H as [He Hm].
    unfold mul. cbn [SFmul xorb]. apply round_aux_le100.
    unfold le100. rewrite Pos2Z.inj_mul.
    rewrite (Z.max_l 0 (e + -46)), (Z.max_r 0 (- (e + -46))), Z.pow_0_r by lia.
    replace (- (e + -46)) with (46 + - e) by lia.
    rewrite Z.pow_add_r by lia. change (2 ^ 46) with 70368744177664.
    pose proof (pow2_pos (- e)). nia.
Qed.

Lemma round_le100 (x : number) :
  match x with
  | S754_zero false => True
  | S754_finite false m e => le100 (Zpos m) e
  | _ => False
  end ->
  exists n : Z, 0 <= n <= 100 /\ Math.round x = of_Z n.
Proof.
  destruct x as [[|] | | | [|] m e]; try contradiction.
  - intros _. exists 0. split; [lia | reflexivity].
  - intros H. exists (Math.round_to_Z false m e). split.
    + unfold le100 in H. destruct e as [| k | k]; cbn [Math.round_to_Z].
      * change (Z.pos m * 1 <= 100 * 1) in H. rewrite Z.pow_0_r. lia.
      * rewrite (Z.max_r 0 (Z.pos k)), (Z.max_l 0 (- Z.pos k)), Z.pow_0_r in H by lia.
        pose proof (pow2_pos (Z.pos k)). nia.
      * rewrite (Z.max_l 0 (Z.neg k)), (Z.max_r 0 (- Z.neg k)), Z.pow_0_r in H by lia.
        change (- Z.neg k) with (Z.pos k) in H.
        pose proof (pow2_pos (Zpos k)).
        rewrite Z.pow_add_r by lia. change (2 ^ 1) with 2.
        split.
        -- apply Z.div_pos; lia.
        -- apply Z.lt_succ_r. apply Z.div_lt_upper_bound; lia.
    + cbn [Math.round]. destruct (Math.round_to_Z false m e); reflexivity.
Qed.

Lemma grid_all : forallb (fun i => grid_ok (Z.of_nat i)) (seq 0 101) = true.
Proof. vm_compute. reflexivity. Qed.

Lemma grid_ok_range (n : Z) : 0 <= n <= 100 -> grid_ok n = true.
Proof.
  intros H. pose proof grid_all as G. rewrite forallb_forall in G.
  specialize (G (Z.to_nat n)). rewrite Z2Nat.id in G by lia.
  apply G. apply in_seq. lia.
Qed.

Lemma round2_two_decimals (c : number) :
  unit_interval c ->
  two_decimals (div (Math.round (mul c hundred)) hundred).
Proof.
  intros H. apply mul_hundred_le100 in H. apply round_le100 in H.
  destruct H as (n & Hn & ->). exists n. split; [exact Hn |].
  pose proof (grid_ok_range n Hn) as G. unfold grid_ok in G.
  repeat (apply andb_prop in G; destruct G as [G ?]).
  apply bool_decide_eq_true in G. exact G.
Qed.

(** ** The order on numbers *)

Lemma xcompare_antisym (a b : xreal) : xcompare b a = CompOpp (xcompare a b).
Proof.
  destruct a, b; cbn [xcompare CompOpp]; try reflexivity.
  symmetry. apply Qcompare_antisym.
Qed.

Lemma xcompare_gt_trans (a b c : xreal) :
  xcompare a b = Gt -> xcompare b c = Gt -> xcompare a c = Gt.
Proof.
  destruct a, b, c; cbn [xcompare]; try congruence.
  rewrite <- !Qgt_alt. intros H1 H2. exact (Qlt_trans _ _ _ H2 H1).
Qed.

Lemma xcompare_ge_gt_trans (a b c : xreal) :
  xcompare a b <> Lt -> xcompare b c = Gt -> xcompare a c = Gt.
Proof.
  destruct a, b, c; cbn [xcompare]; try congruence.
  rewrite <- !Qgt_alt, <- Qge_alt. intros H1 H2. exact (Qlt_le_trans _ _ _ H2 H1).
Qed.

Lemma xcompare_gt_ge_trans (a b c : xreal) :
  xcompare a b = Gt -> xcompare b c <> Lt -> xcompare a c = Gt.
Proof.
  destruct a, b, c; cbn [xcompare]; try congruence.
  rewrite <- !Qgt_alt, <- Qge_alt. intros H1 H2. exact (Qle_lt_trans _ _ _ H2 H1).
Qed.

Lemma xcompare_refl (a : xreal) : xcompare a a = Eq.
Proof. destruct a; cbn [xcompare]; try reflexivity. apply Qeq_alt. reflexivity. Qed.

Lemma gt_spec (a b : number) :
  gt a b = true <->
  exists x y, real_of a = Some x /\ real_of b = Some y /\ xcompare x y = Gt.
Proof.
  unfold gt, Number.compare. destruct (real_of a) as [x |], (real_of b) as [y |].
  - split.
    + intros H. exists x, y. destruct (xcompare x y); try discriminate. auto.
    + intros (x' & y' & [= <-] & [= <-] & ->). reflexivity.
  - split; [discriminate | intros (? & ? & _ & [=] & _)].
  - split; [discriminate | intros (? & ? & [=] & _)].
  - split; [discriminate | intros (? & ? & [=] & _)].
Qed.

Lemma ge_spec (a b : number) :
  ge a b = true <->
  exists x y, real_of a = Some x /\ real_of b = Some y /\ xcompare x y <> Lt.
Proof.
  unfold ge, Number.compare. destruct (real_of a) as [x |], (real_of b) as [y |].
  - split.
    + intros H. exists x, y. destruct (xcompare x y); try discriminate; repeat split; congruence.
    + intros (x' & y' & [= <-] & [= <-] & H). destruct (xcompare x y); congruence.
  - split; [discriminate | intros (? & ? & _ & [=] & _)].
  - split; [discriminate | intros (? & ? & [=] & _)].
  - split; [discriminate | intros (? & ? & [=] & _)].
Qed.

Lemma le_spec (a b : number) :
  le a b = true <->
  exists x y, real_of a = Some x /\ real_of b = Some y /\ xcompare x y <> Gt.
Proof.
  unfold le, Number.compare. destruct (real_of a) as [x |], (real_of b) as [y |].
  - split.
    + intros H. exists x, y. destruct (xcompare x y); try discriminate; repeat split; congruence.
    + intros (x' & y' & [= <-] & [= <-] & H). destruct (xcompare x y); congruence.
  - split; [discriminate | intros (? & ? & _ & [=] & _)].
  - split; [discriminate | intros (? & ? & [=] & _)].
  - split; [discriminate | intros (? & ? & [=] & _)].
Qed.

Lemma lt_spec (a b : number) :
  lt a b = true <->
  exists x y, real_of a = Some x /\ real_of b = Some y /\ xcompare x y = Lt.
Proof.
  unfold lt, Number.compare. destruct (real_of a) as [x |], (real_of b) as [y |].
  - split.
    + intros H. exists x, y. destruct (xcompare x y); try discriminate. auto.
    + intros (x' & y' & [= <-] & [= <-] & ->). reflexivity.
  - split; [discriminate | intros (? & ? & _ & [=] & _)].
  - split; [discriminate | intros (? & ? & [=] & _)].
  - split; [discriminate | intros (? & ? & [=] & _)].
Qed.

Lemma gt_trans (a b c : number) :
  gt a b = true -> gt b c = true -> gt a c = true.
Proof.
  rewrite !gt_spec. intros (x & y & Hx & Hy & H1) (y' & z & Hy' & Hz & H2).
  rewrite Hy in Hy'. injection Hy' as <-.
  exists x, z. eauto using xcompare_gt_trans.
Qed.

Lemma ge_gt_trans (a b c : number) :
  ge a b = true -> gt b c = true -> gt a c = true.
Proof.
  rewrite ge_spec, !gt_spec. intros (x & y & Hx & Hy & H1) (y' & z & Hy' & Hz & H2).
  rewrite Hy in Hy'. injection Hy' as <-.
  exists x, z. eauto using xcompare_ge_gt_trans.
Qed.

Lemma gt_ge_trans (a b c : number) :
  gt a b = true -> ge b c = true -> gt a c = true.
Proof.
  rewrite ge_spec, !gt_spec. intros (x & y & Hx & Hy & H1) (y' & z & Hy' & Hz & H2).
  rewrite Hy in Hy'. injection Hy' as <-.
  exists x, z. eauto using xcompare_gt_ge_trans.
Qed.

Lemma gt_ge (a b : number) : gt a b = true -> ge a b = true.
Proof.
  unfold gt, ge. destruct (Number.compare a b) as [[| |] |]; congruence.
Qed.

Lemma gt_not_ge (a b : number) : gt a b = true -> ge b a = false.
Proof.
  unfold gt, ge, Number.compare.
  destruct (real_of a) as [x |], (real_of b) as [y |]; try discriminate.
  rewrite (xcompare_antisym x y). destruct (xcompare x y); cbn; congruence.
Qed.

(** Two numbers that are not NaN are comparable. *)
Lemma not_gt_le (a b : number) :
  is_nan a = false -> is_nan b = false -> gt a b = false -> le a b = true.
Proof.
  unfold gt, le, Number.compare.
  destruct a, b; cbn [is_nan real_of]; try discriminate;
    intros _ _; match goal with |- context [xcompare ?x ?y] => destruct (xcompare x y) end;
    congruence.
Qed.

Lemma not_ge_le (a b : number) :
  is_nan a = false -> is_nan b = false -> ge a b = false -> le a b = true.
Proof.
  unfold ge, le, Number.compare.
  destruct a, b; cbn [is_nan real_of]; try discriminate;
    intros _ _; match goal with |- context [xcompare ?x ?y] => destruct (xcompare x y) end;
    congruence.
Qed.

Lemma ge_not_nan (a b : number) : ge a b = true -> is_nan a = false.
Proof. destruct a; try reflexivity. discriminate. Qed.

Lemma gt_not_nan (a b : number) : gt a b = true -> is_nan a = false.
Proof. destruct a; try reflexivity. discriminate. Qed.

Lemma le_refl (a : number) : is_nan a = false -> le a a = true.
Proof.
  unfold le, Number.compare. destruct (real_of a) as [x |] eqn:E.
  - intros _. rewrite xcompare_refl. reflexivity.
  - destruct a; discriminate.
Qed.

(** ** Clamping *)

Lemma compare_zero_pos (m : positive) (e : Z) :
  Number.compare (S754_zero false) (S754_finite false m e) = Some Lt.
Proof.
  unfold Number.compare. cbn [real_of xcompare]. f_equal.
  apply Qlt_alt. apply mag_pos.
Qed.

Lemma compare_pos_neg (m m' : positive) (e e' : Z) :
  Number.compare (S754_finite false m e) (S754_finite true m' e') = Some Gt.
Proof.
  unfold Number.compare. cbn [real_of xcompare]. f_equal.
  apply Qgt_alt. pose proof (mag_pos m e). pose proof (mag_pos m' e').
  apply Qlt_trans with 0%Q; [| assumption].
  apply (Qopp_lt_compat 0 (mag m' e')). assumption.
Qed.

Lemma compare_zero_neg (m : positive) (e : Z) :
  Number.compare (S754_zero false) (S754_finite true m e) = Some Gt.
Proof.
  unfold Number.compare. cbn [real_of xcompare]. f_equal.
  apply Qgt_alt. apply (Qopp_lt_compat 0 (mag m e)). apply mag_pos.
Qed.

Lemma unit_interval_one : unit_interval one.
Proof. rewrite one_eq. unfold unit_interval, mag, Qle. cbn. lia. Qed.

Lemma clamp_unit_interval (v : number) :
  is_nan v = false -> unit_interval (Math.max zero (Math.min one v)).
Proof.
  intros Hv. destruct v as [[|] | [|] | | [|] m e]; try discriminate Hv;
    try exact I; try exact unit_interval_one.
  - (* negative *)
    unfold Math.min. rewrite one_eq, compare_pos_neg.
    unfold Math.max. rewrite zero_eq, compare_zero_neg. exact I.
  - unfold Math.min. rewrite one_eq.
    destruct (Number.compare (S754_finite false 4503599627370496 (-52))
                (S754_finite false m e)) as [[| |] |] eqn:C.
    + cbn [is_neg_zero]. unfold Math.max. rewrite zero_eq, compare_zero_pos.
      cbn [unit_interval]. unfold Number.compare in C. cbn [real_of xcompare] in C.
      injection C as C. apply Qeq_alt in C. rewrite <- C.
      unfold mag, Qle. cbn. lia.
    + exact unit_interval_one.
    + unfold Math.max. rewrite zero_eq, compare_zero_pos.
      cbn [unit_interval]. unfold Number.compare in C. cbn [real_of xcompare] in C.
      injection C as C. apply Qgt_alt in C. apply Qlt_le_weak.
      eapply Qlt_le_trans; [exact C |]. unfold mag, Qle. cbn. lia.
    + discriminate C.
Qed.

(** ** The scan for the dominant flag *)

Lemma maxFlag_snoc (l : list FlagRecord) (c : FlagRecord) :
  maxFlag (l ++ [c]) = pick_max (maxFlag l) c.
Proof. unfold maxFlag. rewrite fold_left_app. reflexivity. Qed.

Lemma maxFlag_dominant (results : list FlagRecord) :
  dominant results (maxFlag results).
Proof.
  induction results as [| c l IH] using rev_ind.
  - left. split; [reflexivity |]. intros r Hr. inversion Hr.
  - rewrite maxFlag_snoc. unfold pick_max.
    destruct (gt (value c) (value (maxFlag l))) eqn:G.
    + right. exists l, []. split; [reflexivity |].
      destruct IH as [[Hb Hall] | (before & after & Hl & Hgt & Hbef & Haft)].
      * rewrite Hb in G. cbn [value no_flag] in G.
        split; [exact G |]. split; [| intros x Hx; inversion Hx].
        intros x Hx. destruct (ge (value x) (value c)) eqn:Gx; [| reflexivity].
        rewrite <- (Hall x Hx). symmetry. exact (ge_gt_trans _ _ _ Gx G).
      * split; [exact (gt_trans _ _ _ G Hgt) |].
        split; [| intros x Hx; inversion Hx].
        intros x Hx. destruct (ge (value x) (value c)) eqn:Gx; [| reflexivity].
        pose proof (ge_gt_trans _ _ _ Gx G) as Gx'.
        rewrite Hl in Hx. apply elem_of_app in Hx. destruct Hx as [Hx | Hx].
        -- rewrite <- (Hbef x Hx). symmetry. exact (gt_ge _ _ Gx').
        -- apply elem_of_cons in Hx. destruct Hx as [-> | Hx].
           ++ rewrite <- (gt_not_ge _ _ G). symmetry. exact Gx.
           ++ rewrite <- (Haft x Hx). symmetry. exact Gx'.
    + destruct IH as [[Hb Hall] | (before & after & Hl & Hgt & Hbef & Haft)].
      * left. split; [exact Hb |]. intros r Hr.
        apply elem_of_app in Hr. destruct Hr as [Hr | Hr]; [exact (Hall r Hr) |].
        apply list_elem_of_singleton in Hr. subst r.
        rewrite Hb in G. exact G.
      * right. exists before, (after ++ [c])%list. split.
        { rewrite Hl at 1. rewrite <- app_assoc. reflexivity. }
        split; [exact Hgt |]. split; [exact Hbef |].
        intros x Hx. apply elem_of_app in Hx. destruct Hx as [Hx | Hx]; [exact (Haft x Hx) |].
        apply list_elem_of_singleton in Hx. subst x. exact G.
Qed.

Lemma zero_gt_minus_one : gt zero minus_one = true.
Proof. reflexivity. Qed.

(** A record with a score of at least 0 rules out the initial accumulator. *)
Lemma maxFlag_supersedes (results : list FlagRecord) (r : FlagRecord) :
  r ∈ results -> ge (value r) zero = true ->
  maxFlag results ∈ results /\ ge (value (maxFlag results)) zero = true.
Proof.
  intros Hr Hge.
  assert (Hr1 : gt (value r) minus_one = true)
    by exact (ge_gt_trans _ _ _ Hge zero_gt_minus_one).
  destruct (maxFlag_dominant results) as [[_ Hall] | (before & after & Hl & Hgt & Hbef & Haft)].
  - rewrite (Hall r Hr) in Hr1. discriminate.
  - split.
    + rewrite Hl at 2. apply elem_of_app. right. apply elem_of_cons. left. reflexivity.
    + set (best := maxFlag results) in *.
      assert (Hnb : is_nan (value best) = false) by exact (gt_not_nan _ _ Hgt).
      assert (Hnr : is_nan (value r) = false) by exact (ge_not_nan _ _ Hge).
      destruct (ge (value best) zero) eqn:Hb; [reflexivity | exfalso].
      (* best < 0 <= r, so r > best *)
      assert (Hrb : gt (value r) (value best) = true).
      { apply gt_spec. apply ge_spec in Hge. destruct Hge as (x & z & Hx & Hz & Hxz).
        destruct (real_of (value best)) as [b |] eqn:Eb; [| destruct (value best); discriminate].
        exists x, b. repeat split; try assumption.
        unfold ge, Number.compare in Hb. rewrite Eb, Hz in Hb.
        apply xcompare_ge_gt_trans with z; [exact Hxz |].
        rewrite (xcompare_antisym b z). destruct (xcompare b z); cbn; congruence. }
      rewrite Hl in Hr. apply elem_of_app in Hr. destruct Hr as [Hr | Hr].
      * pose proof (Hbef r Hr) as Hx. rewrite (gt_ge _ _ Hrb) in Hx. discriminate.
      * apply elem_of_cons in Hr. destruct Hr as [-> | Hr].
        -- unfold gt, Number.compare in Hrb.
           destruct (real_of (value best)) as [b |]; [| discriminate].
           rewrite xcompare_refl in Hrb. discriminate.
        -- rewrite (Haft r Hr) in Hrb. discriminate.
Qed.

(** ** The score normalizer *)

Lemma get_property_readable (v : JSValue) (key : string) :
  readable v = true -> get_property v key = Normal (property_of v key).
Proof. destruct v; try discriminate; intros _; reflexivity. Qed.

Lemma get_property_unreadable (v : JSValue) (key : string) :
  readable v = false -> exists e, get_property v key = Throw e.
Proof. destruct v; try discriminate; intros _; eexists; reflexivity. Qed.

Lemma validate_flag_readable (v : JSValue) (validated : gmap string number)
  (flag : string) :
  readable v = true ->
  validate_flag v validated flag =
    if ToString_completes (property_of v flag)
    then Normal (<[flag := spec_normalize (property_of v flag)]> validated)
    else Throw (Error "Cannot convert object to primitive value").
Proof.
  intros Hv. unfold validate_flag. rewrite (get_property_readable v flag Hv).
  cbn [cbind]. unfold parseFloat.
  destruct (ToString_completes (property_of v flag)); [| reflexivity].
  cbn [cbind]. unfold read_number. rewrite lookup_insert_eq, insert_insert_eq.
  reflexivity.
Qed.

Lemma forEach_validate_readable (v : JSValue) (flags : list string)
  (acc : gmap string number) :
  readable v = true ->
  forEach (validate_flag v) flags acc =
    if convertible v flags
    then Normal (normalized_from v flags acc)
    else Throw (Error "Cannot convert object to primitive value").
Proof.
  intros Hv. revert acc. induction flags as [| flag flags IH]; intros acc.
  - reflexivity.
  - cbn [forEach convertible forallb].
    rewrite (validate_flag_readable v acc flag Hv).
    destruct (ToString_completes (property_of v flag)); [| reflexivity].
    cbn [cbind andb]. rewrite IH. reflexivity.
Qed.

Lemma normalized_from_lookup (v : JSValue) (flags : list string)
  (acc : gmap string number) (k : string) :
  normalized_from v flags acc !! k =
    if decide (k ∈ flags) then Some (spec_normalize (property_of v k))
    else acc !! k.
Proof.
  revert acc. induction flags as [| flag flags IH]; intros acc.
  - cbn. destruct (decide (k ∈ [])) as [H | H]; [inversion H | reflexivity].
  - unfold normalized_from in *. cbn [fold_left]. rewrite IH.
    destruct (decide (k ∈ flags)) as [H | H].
    + rewrite decide_True by (apply elem_of_cons; right; exact H). reflexivity.
    + destruct (decide (k = flag)) as [-> | Hne].
      * rewrite decide_True by (apply elem_of_cons; left; reflexivity).
        apply lookup_insert_eq.
      * rewrite decide_False by (rewrite elem_of_cons; tauto).
        apply lookup_insert_ne. congruence.
Qed.

Lemma normalized_from_dom (v : JSValue) (flags : list string)
  (acc : gmap string number) :
  dom (normalized_from v flags acc) = dom acc ∪ list_to_set flags.
Proof.
  revert acc. induction flags as [| flag flags IH]; intros acc.
  - cbn. set_solver.
  - unfold normalized_from in *. cbn [fold_left]. rewrite IH.
    rewrite dom_insert_L. cbn [list_to_set]. set_solver.
Qed.

Lemma parseAndValidateScores_readable (aiResponse : string) (v : JSValue) :
  JSON.parse aiResponse = Normal v -> readable v = true ->
  parseAndValidateScores aiResponse =
    if convertible v FLAG_TYPES
    then Normal (normalized_from v FLAG_TYPES ∅)
    else Throw (Error "Invalid AI response format").
Proof.
  intros Hp Hv. unfold parseAndValidateScores. rewrite Hp. cbn [cbind].
  rewrite (forEach_validate_readable v FLAG_TYPES ∅ Hv).
  destruct (convertible v FLAG_TYPES); reflexivity.
Qed.

Lemma parseAndValidateScores_unreadable (aiResponse : string) (v : JSValue) :
  JSON.parse aiResponse = Normal v -> readable v = false ->
  parseAndValidateScores aiResponse = Throw (Error "Invalid AI response format").
Proof.
  intros Hp Hv. unfold parseAndValidateScores. rewrite Hp. cbn [cbind].
  unfold FLAG_TYPES. cbn [forEach]. unfold validate_flag at 1.
  destruct (get_property_unreadable v "toxicity" Hv) as [e ->]. reflexivity.
Qed.

Lemma parseAndValidateScores_syntax (aiResponse : string) (e : JSError) :
  JSON.parse aiResponse = Throw e ->
  parseAndValidateScores aiResponse = Throw (Error "Invalid AI response format").
Proof. intros Hp. unfold parseAndValidateScores. rewrite Hp. reflexivity. Qed.

Lemma spec_normalize_two_decimals (raw : JSValue) :
  two_decimals (spec_normalize raw).
Proof.
  unfold spec_normalize, round2. apply round2_two_decimals.
  apply clamp_unit_interval. unfold isNaN.
  destruct (is_nan (parseFloat_value raw)) eqn:E; [reflexivity | exact E].
Qed.

Lemma two_decimals_unit (x : number) :
  two_decimals x -> le zero x = true /\ le x one = true.
Proof.
  intros (n & Hn & ->). pose proof (grid_ok_range n Hn) as G. unfold grid_ok in G.
  repeat (apply andb_prop in G; destruct G as [G ?]).
  split; assumption.
Qed.

Lemma parseAndValidateScores_score_mapping (aiResponse : string)
  (validated : gmap string number) :
  parseAndValidateScores aiResponse = Normal validated ->
  score_mapping validated.
Proof.
  intros H. destruct (JSON.parse aiResponse) as [v | e] eqn:Hp.
  - destruct (readable v) eqn:Hv.
    + rewrite (parseAndValidateScores_readable _ _ Hp Hv) in H.
      destruct (convertible v FLAG_TYPES); [| discriminate H].
      assert (Hval : validated = normalized_from v FLAG_TYPES ∅) by congruence.
      rewrite Hval. intros flag x Hx.
      rewrite normalized_from_lookup in Hx.
      destruct (decide (flag ∈ FLAG_TYPES)); [| rewrite lookup_empty in Hx; discriminate Hx].
      injection Hx as <-.
      exact (two_decimals_unit _ (spec_normalize_two_decimals _)).
    + rewrite (parseAndValidateScores_unreadable _ _ Hp Hv) in H. discriminate H.
  - rewrite (parseAndValidateScores_syntax _ _ Hp) in H. discriminate H.
Qed.

(** [JSON.parse] never gives [undefined]. *)
Lemma parse_shapes (fuel : nat) :
  (forall s v r, JSON.parse_value fuel s = Some (v, r) -> v <> JUndefined) /\
  (forall s acc v r, JSON.parse_elements fuel s acc = Some (v, r) ->
                     exists l, v = JArr l) /\
  (forall s acc v r, JSON.parse_members fuel s acc = Some (v, r) ->
                     exists ps, v = JObj ps).
Proof.
  induction fuel as [| fuel (IHv & IHe & IHm)].
  - repeat split; intros; discriminate.
  - split; [| split].
    + intros s v r H. cbn [JSON.parse_value] in H.
      repeat (case_match; simplify_eq); try discriminate.
      * destruct (IHm _ _ _ _ H) as [ps ->]. discriminate.
      * destruct (IHe _ _ _ _ H) as [l ->]. discriminate.
    + intros s acc v r H. cbn [JSON.parse_elements] in H.
      repeat (case_match; simplify_eq); eauto.
    + intros s acc v r H. cbn [JSON.parse_members] in H.
      repeat (case_match; simplify_eq); eauto.
Qed.

Lemma parse_defined (text : string) (v : JSValue) :
  JSON.parse text = Normal v -> v <> JUndefined.
Proof.
  unfold JSON.parse. intros H.
  repeat (case_match; simplify_eq).
  match goal with
  | E : JSON.parse_value _ _ = Some _ |- _ =>
      exact (proj1 (parse_shapes _) _ _ _ E)
  end.
Qed.

Lemma convertible_spec (v : JSValue) (flags : list string) :
  convertible v flags = true <->
  forall flag, flag ∈ flags -> ToString_completes (property_of v flag) = true.
Proof.
  unfold convertible. rewrite forallb_forall. split.
  - intros H flag Hflag. apply H. apply list_elem_of_In. exact Hflag.
  - intros H flag Hflag. apply H. apply list_elem_of_In. exact Hflag.
Qed.

(** Numbers, strings, booleans, [null] and [undefined] can be converted to
    a string. *)
Lemma ToString_completes_primitive (v : JSValue) :
  match v with JObj _ | JArr _ => False | _ => True end ->
  ToString_completes v = true.
Proof. destruct v; try reflexivity; contradiction. Qed.

(** C1, as stated, fails: the text [{"toxicity": {"toString": 1}}] parses
    as an object, but the value of its flag cannot be converted to a
    string, so that [parseFloat] throws a TypeError and the normalizer
    raises instead of returning a mapping. *)
Lemma C1_counterexample :
  JSON.parse odd_payload =
    Normal (JObj [("toxicity", JObj [("toString", JNum one)])]) /\
  parseFloat (JObj [("toString", JNum one)]) =
    Throw (Error "Cannot convert object to primitive value") /\
  parseAndValidateScores odd_payload =
    Throw (Error "Invalid AI response format").
Proof. vm_compute. repeat split; reflexivity. Qed.

(** C1, amended. For a payload that parses as an object in which the
    value of every flag can be converted to a string (as numbers, strings,
    booleans, null and absent values can; an object with an own property
    named toString cannot, nor an array that holds one), the normalizer
    returns a mapping whose keys are exactly the six flag types; the value
    of each flag is the raw value coerced to a number (0 for NaN), clamped
    to [0,1] and rounded to two decimals, so that it is one of the numbers
    written [n / 100] with [0 <= n <= 100] and lies in [0,1]. *)
Theorem C1_normalizer_output (aiResponse : string)
  (props : list (string * JSValue)) :
  JSON.parse aiResponse = Normal (JObj props) ->
  (forall flag, flag ∈ FLAG_TYPES ->
     ToString_completes (default JUndefined (assoc_get flag props)) = true) ->
  exists validated : gmap string number,
    parseAndValidateScores aiResponse = Normal validated /\
    dom validated = list_to_set FLAG_TYPES /\
    forall flag, flag ∈ FLAG_TYPES ->
      let raw := default JUndefined (assoc_get flag props) in
      validated !! flag = Some (spec_normalize raw) /\
      two_decimals (spec_normalize raw) /\
      le zero (spec_normalize raw) = true /\
      le (spec_normalize raw) one = true.
Proof.
  intros Hp Hconv. exists (normalized_from (JObj props) FLAG_TYPES ∅).
  split.
  { rewrite (parseAndValidateScores_readable _ _ Hp eq_refl).
    rewrite (proj2 (convertible_spec (JObj props) FLAG_TYPES) Hconv).
    reflexivity. }
  split.
  - rewrite normalized_from_dom, dom_empty_L. apply (left_id_L ∅ (∪)).
  - intros flag Hflag raw. split.
    + rewrite normalized_from_lookup, decide_True by exact Hflag. reflexivity.
    + pose proof (spec_normalize_two_decimals raw) as T.
      split; [exact T | exact (two_decimals_unit _ T)].
Qed.

Lemma C1_normalizer_output_witness :
  exists validated : gmap string number,
    parseAndValidateScores sample_payload = Normal validated /\
    dom validated = list_to_set FLAG_TYPES /\
    forall flag, flag ∈ FLAG_TYPES ->
      let raw :=
        default JUndefined
          (assoc_get flag
             [("toxicity", JStr "abc"); ("spam", JNum (of_decimal false 857 (-3)))]) in
      validated !! flag = Some (spec_normalize raw) /\
      two_decimals (spec_normalize raw) /\
      le zero (spec_normalize raw) = true /\
      le (spec_normalize raw) one = true.
Proof.
  apply (C1_normalizer_output sample_payload
           [("toxicity", JStr "abc"); ("spam", JNum (of_decimal false 857 (-3)))]).
  - vm_compute. reflexivity.
  - apply (convertible_spec
             (JObj [("toxicity", JStr "abc");
                    ("spam", JNum (of_decimal false 857 (-3)))]) FLAG_TYPES).
    vm_compute. reflexivity.
Defined.

(** A raw value that is no numeral is scored 0; 0.857 is scored 0.86. *)
Example normalize_abc :
  normalized_score sample_payload "toxicity" = Some zero /\
  normalized_score sample_payload "spam" = Some (of_decimal false 86 (-2)) /\
  normalized_score sample_payload "violence" = Some zero.
Proof. vm_compute. repeat split; reflexivity. Qed.

(** C4, as stated, fails: 1.499 is clamped to 1 before it is rounded, so
    its score is 1 and not 0.5. *)
Lemma C4_counterexample :
  normalized_score (json_object1 "toxicity" "1.499") "toxicity" = Some one /\
  normalized_score (json_object1 "toxicity" "1.499") "toxicity"
    <> Some (of_decimal false 5 (-1)).
Proof. vm_compute. split; [reflexivity | discriminate]. Qed.

(** C4, amended. Normalizing [{toxicity: 1.499}] yields 1, [{toxicity: -3}]
    yields 0 and [{toxicity: 3}] yields 1. *)
Theorem C4_clamp_examples :
  normalized_score (json_object1 "toxicity" "1.499") "toxicity" = Some one /\
  normalized_score (json_object1 "toxicity" "-3") "toxicity" = Some zero /\
  normalized_score (json_object1 "toxicity" "3") "toxicity" = Some one.
Proof. vm_compute. repeat split; reflexivity. Qed.

(** The input that is scored 0.5 is 0.499. *)
Example normalize_0_499 :
  normalized_score (json_object1 "toxicity" "0.499") "toxicity"
    = Some (of_decimal false 5 (-1)).
Proof. vm_compute. reflexivity. Qed.

(** ** The response formatter *)

Lemma or_zero_present (v : number) :
  is_nan v = false -> Number.compare (or_zero (Some v)) v = Some Eq.
Proof.
  intros Hv. unfold or_zero. destruct v as [s | s | | s m e]; try discriminate Hv.
  - reflexivity.
  - cbn [truthy]. unfold Number.compare. cbn [real_of]. rewrite xcompare_refl. reflexivity.
  - cbn [truthy]. unfold Number.compare. cbn [real_of]. rewrite xcompare_refl. reflexivity.
Qed.

(** C5. The formatter gives one record per flag type, in the declared
    order, whatever the mapping; the record of a flag has the value of the
    mapping for it, and 0 when the mapping has none.  It is a function of
    the mapping alone: it changes no state and cannot fail. *)
Theorem C5_formatResponse_order (scores : gmap string number) :
  map flag_type (formatResponse scores) =
    [Some "toxicity"; Some "harassment"; Some "hate-speech"; Some "sexual";
     Some "violence"; Some "spam"] /\
  (forall (i : nat) flag, FLAG_TYPES !! i = Some flag ->
     exists r, formatResponse scores !! i = Some r /\
       flag_type r = Some flag /\
       value r = or_zero (scores !! flag) /\
       (scores !! flag = None -> value r = zero) /\
       (forall v, scores !! flag = Some v -> is_nan v = false ->
                  Number.compare (value r) v = Some Eq)) /\
  (forall scores' : gmap string number,
     map flag_type (formatResponse scores') =
     map flag_type (formatResponse scores)).
Proof.
  split; [reflexivity |]. split; [| reflexivity].
  intros i flag Hi. unfold formatResponse.
  exists {| flag_type := Some flag; value := or_zero (scores !! flag) |}.
  split; [rewrite list_lookup_fmap, Hi; reflexivity |].
  cbn [flag_type value]. split; [reflexivity |]. split; [reflexivity |].
  split.
  - intros ->. reflexivity.
  - intros v -> Hv. exact (or_zero_present v Hv).
Qed.

(** ** Failure of the normalizer *)

(** C6, as stated, fails in both directions: the text [42] parses, to a
    number and not to a structured object, and the normalizer returns the
    all-zero mapping instead of raising; the text
    [{"toxicity": {"toString": 1}}] parses as a structured object and the
    normalizer raises. *)
Lemma C6_counterexample :
  (JSON.parse "42" = Normal (JNum (of_decimal false 42 0)) /\
   (exists validated, parseAndValidateScores "42" = Normal validated) /\
   normalized_score "42" "toxicity" = Some zero) /\
  (JSON.parse odd_payload =
     Normal (JObj [("toxicity", JObj [("toString", JNum one)])]) /\
   parseAndValidateScores odd_payload =
     Throw (Error "Invalid AI response format")).
Proof.
  split; [| vm_compute; split; reflexivity].
  split; [vm_compute; reflexivity |]. split; [| vm_compute; reflexivity].
  eexists.
  rewrite (parseAndValidateScores_readable "42" (JNum (of_decimal false 42 0)));
    [| vm_compute; reflexivity | reflexivity].
  reflexivity.
Qed.

(** C6, amended. The normalizer raises exactly when the input is no JSON
    text, is the JSON text [null], or gives one of the six flags a value
    that cannot be converted to a string; the error it raises is then
    "Invalid AI response format"; for every other input, in particular an
    object whose flag values can be converted to strings, it succeeds. *)
Theorem C6_normalizer_failure (aiResponse : string) :
  ((exists e, parseAndValidateScores aiResponse = Throw e) <->
   ((exists e, JSON.parse aiResponse = Throw e) \/
    JSON.parse aiResponse = Normal JNull \/
    (exists v, JSON.parse aiResponse = Normal v /\
               convertible v FLAG_TYPES = false))) /\
  (forall e, parseAndValidateScores aiResponse = Throw e ->
             e = Error "Invalid AI response format") /\
  (forall v, JSON.parse aiResponse = Normal v -> v <> JNull ->
             convertible v FLAG_TYPES = true ->
             exists validated, parseAndValidateScores aiResponse = Normal validated) /\
  (forall props, JSON.parse aiResponse = Normal (JObj props) ->
             (forall flag, flag ∈ FLAG_TYPES ->
                ToString_completes (default JUndefined (assoc_get flag props))
                  = true) ->
             exists validated, parseAndValidateScores aiResponse = Normal validated).
Proof.
  assert (Hread : forall v, JSON.parse aiResponse = Normal v -> v <> JNull ->
                            readable v = true).
  { intros v Hp Hv. pose proof (parse_defined _ _ Hp).
    destruct v; try reflexivity; congruence. }
  assert (Hok : forall v, JSON.parse aiResponse = Normal v -> v <> JNull ->
             convertible v FLAG_TYPES = true ->
             exists validated, parseAndValidateScores aiResponse = Normal validated).
  { intros v Hp Hv Hc. eexists.
    rewrite (parseAndValidateScores_readable _ v Hp (Hread v Hp Hv)), Hc.
    reflexivity. }
  split; [| split; [| split]].
  - split.
    + intros [e He]. destruct (JSON.parse aiResponse) as [v | e'] eqn:Hp.
      * assert (Hv : v = JNull \/ v <> JNull)
          by (destruct v; (left; reflexivity) || (right; discriminate)).
        destruct Hv as [-> | Hv]; [right; left; reflexivity |].
        destruct (convertible v FLAG_TYPES) eqn:Hc.
        -- destruct (Hok v eq_refl Hv Hc) as [validated Hval]. congruence.
        -- right. right. exists v. split; [reflexivity | exact Hc].
      * left. exists e'. reflexivity.
    + intros [[e He] | [Hn | (v & Hp & Hc)]].
      * eexists. exact (parseAndValidateScores_syntax _ _ He).
      * eexists. exact (parseAndValidateScores_unreadable _ _ Hn eq_refl).
      * destruct (readable v) eqn:Hv.
        -- eexists. rewrite (parseAndValidateScores_readable _ _ Hp Hv), Hc.
           reflexivity.
        -- eexists. exact (parseAndValidateScores_unreadable _ _ Hp Hv).
  - intros e He. destruct (JSON.parse aiResponse) as [v | e'] eqn:Hp.
    + destruct (readable v) eqn:Hv.
      * rewrite (parseAndValidateScores_readable _ _ Hp Hv) in He.
        destruct (convertible v FLAG_TYPES); congruence.
      * rewrite (parseAndValidateScores_unreadable _ _ Hp Hv) in He. congruence.
    + rewrite (parseAndValidateScores_syntax _ _ Hp) in He. congruence.
  - exact Hok.
  - intros props Hp Hc. apply (Hok _ Hp); [discriminate |].
    apply convertible_spec. exact Hc.
Qed.

(** ** The fallback generator *)

Lemma random_draw_unit (r : number) : random_draw r -> unit_interval r.
Proof.
  intros (H1 & H2 & H3).
  destruct r as [[|] | [|] | | [|] m e]; cbn [unit_interval];
    try discriminate H1; try discriminate H2; try discriminate H3; try exact I.
  - unfold le in H2. rewrite zero_eq, compare_zero_neg in H2. discriminate H2.
  - unfold lt, Number.compare in H3. rewrite one_eq in H3.
    cbn [real_of xcompare] in H3.
    destruct (Qcompare (mag m e) (mag 4503599627370496 (-52))) eqn:C;
      try discriminate H3.
    apply Qlt_alt in C. apply Qlt_le_weak.
    eapply Qlt_le_trans; [exact C |]. unfold mag, Qle. cbn. lia.
Qed.

Lemma sample_env_draws (i : nat) : random_draw (random_source sample_env i).
Proof. cbn [random_source sample_env]. destruct (Nat.even i); vm_compute; auto. Qed.

(** The fallback generator, step by step. *)
Lemma generateRandomScores_spec (env : Env) (w : World) :
  exists (scores : gmap string number) (w' : World),
    generateRandomScores env w = (Normal scores, w') /\
    trace w' = (trace w ++ replicate 6 RandomDraw)%list /\
    draws w' = (6 + draws w)%nat /\
    dom scores = list_to_set FLAG_TYPES /\
    (forall (i : nat) flag, FLAG_TYPES !! i = Some flag ->
       scores !! flag = Some (round2 (random_source env (i + draws w)))) /\
    ((forall i, random_draw (random_source env i)) ->
     forall flag v, scores !! flag = Some v ->
       two_decimals v /\ le zero v = true /\ le v one = true).
Proof.
  destruct w as [t d]. eexists. eexists. split; [reflexivity |].
  cbn [trace draws].
  split; [rewrite <- !app_assoc; reflexivity |].
  split; [reflexivity |].
  split.
  { rewrite !dom_insert_L, dom_empty_L. cbn [FLAG_TYPES list_to_set]. set_solver. }
  split.
  - intros i flag Hi.
    destruct i as [| [| [| [| [| [| i]]]]]]; cbn in Hi; try discriminate Hi;
      injection Hi as <-;
      repeat (rewrite lookup_insert_ne by done); rewrite lookup_insert_eq;
      reflexivity.
  - intros Hrng flag v Hv.
    assert (T : two_decimals v).
    { repeat (apply lookup_insert_Some in Hv;
              destruct Hv as [[_ <-] | [_ Hv]];
              [apply round2_two_decimals, random_draw_unit, Hrng |]).
      rewrite lookup_empty in Hv. discriminate Hv. }
    split; [exact T | exact (two_decimals_unit _ T)].
Qed.

(** C7. The fallback generator cannot throw: every call returns a
    mapping whose keys are the six flag types, after six draws from the
    random source; the value of the i-th flag is the i-th draw rounded to
    two decimals, one of the numbers [n / 100] of [0,1]. *)
Theorem C7_generateRandomScores (env : Env) (w : World) :
  exists (scores : gmap string number) (w' : World),
    generateRandomScores env w = (Normal scores, w') /\
    trace w' = (trace w ++ replicate 6 RandomDraw)%list /\
    draws w' = (6 + draws w)%nat /\
    dom scores = list_to_set FLAG_TYPES /\
    (forall (i : nat) flag, FLAG_TYPES !! i = Some flag ->
       scores !! flag = Some (round2 (random_source env (i + draws w)))) /\
    ((forall i, random_draw (random_source env i)) ->
     forall flag v, scores !! flag = Some v ->
       two_decimals v /\ le zero v = true /\ le v one = true).
Proof. exact (generateRandomScores_spec env w). Qed.

Lemma C7_generateRandomScores_witness :
  exists (scores : gmap string number) (w' : World),
    generateRandomScores sample_env initial_world = (Normal scores, w') /\
    forall flag v, scores !! flag = Some v ->
      two_decimals v /\ le zero v = true /\ le v one = true.
Proof.
  destruct (C7_generateRandomScores sample_env initial_world)
    as (scores & w' & H & _ & _ & _ & _ & Hv).
  exists scores, w'. split; [exact H | exact (Hv sample_env_draws)].
Defined.

(** The draws of the sample environment, rounded. *)
Example sample_env_scores :
  match generateRandomScores sample_env initial_world with
  | (Normal scores, w') =>
      scores !! "toxicity" = Some (of_decimal false 25 (-2)) /\
      scores !! "harassment" = Some (of_decimal false 8 (-1)) /\
      draws w' = 6%nat
  | _ => False
  end.
Proof. vm_compute. repeat split; reflexivity. Qed.

Lemma generateRandomScores_score_mapping (env : Env) (w w' : World)
  (scores : gmap string number) :
  (forall i, random_draw (random_source env i)) ->
  generateRandomScores env w = (Normal scores, w') ->
  score_mapping scores.
Proof.
  intros Hrng Hgen.
  destruct (generateRandomScores_spec env w)
    as (scores' & w'' & Hgen' & _ & _ & _ & _ & Hv).
  rewrite Hgen in Hgen'. injection Hgen' as <- <-.
  intros flag v Hflag. exact (proj2 (Hv Hrng flag v Hflag)).
Qed.


(** ** The collaborators *)

Lemma verifyApiKey_eq (env : Env) (apikey : JSValue) (w : World) :
  verifyApiKey env apikey w =
    (Normal (key_accepted env apikey), emit (KeyLookup apikey) w).
Proof.
  unfold verifyApiKey, try_catch, bind, supabase_single, key_accepted, ret.
  destruct (key_store env apikey); reflexivity.
Qed.

Lemma analyzeContentWithAI_eq (env : Env) (content : JSValue) (w : World) :
  analyzeContentWithAI env content w =
    (classified env content, emit (ClassifierCall content) w).
Proof.
  unfold analyzeContentWithAI, try_catch, bind, classifier_reply, classified,
    lift, throw.
  destruct (classifier env content) as [e | e | s]; try reflexivity.
  destruct (parseAndValidateScores s); reflexivity.
Qed.

Lemma storeResultsInSupabase_eq (env : Env) (apikey content : JSValue)
  (results : list FlagRecord) (w : World) :
  storeResultsInSupabase env apikey content results w =
    (stored env (row_of apikey content results),
     emit (Insert (row_of apikey content results)) w).
Proof.
  unfold storeResultsInSupabase, try_catch, bind, supabase_insert, stored,
    throw, ret.
  destruct (result_table env (row_of apikey content results)) as [data [e |] | e];
    reflexivity.
Qed.

(** ** Status derivation *)

Lemma lt_gt_flip (a b : number) : lt a b = gt b a.
Proof.
  unfold lt, gt, Number.compare.
  destruct (real_of a) as [x |], (real_of b) as [y |]; try reflexivity.
  rewrite (xcompare_antisym x y). destruct (xcompare x y); reflexivity.
Qed.

Lemma le_ge_flip (a b : number) : le a b = ge b a.
Proof.
  unfold le, ge, Number.compare.
  destruct (real_of a) as [x |], (real_of b) as [y |]; try reflexivity.
  rewrite (xcompare_antisym x y). destruct (xcompare x y); reflexivity.
Qed.



(** C3. The dominant record is found by a scan that starts from a record
    of value -1 without flag type and replaces the record it holds only by
    a record of strictly greater value.  So it is the first record whose
    value no record exceeds (no earlier record reaches it), or the initial
    record when no record is above -1; a record with a score of at least
    0 rules the initial record out.  For the tie [{toxicity, 0.8},
    {spam, 0.8}] it is the toxicity record and the status is "flagged". *)
Theorem C3_dominant_flag (results : list FlagRecord) :
  maxFlag results = fold_left pick_max results no_flag /\
  flag_type no_flag = None /\ value no_flag = of_decimal true 1 0 /\
  (forall max current,
     pick_max max current =
       if gt (value current) (value max) then current else max) /\
  ((maxFlag results = no_flag /\
    forall r, r ∈ results -> gt (value r) minus_one = false)
   \/
   (exists before after,
      results = (before ++ maxFlag results :: after)%list /\
      gt (value (maxFlag results)) minus_one = true /\
      (forall x, x ∈ before -> ge (value x) (value (maxFlag results)) = false) /\
      (forall x, x ∈ after -> gt (value x) (value (maxFlag results)) = false))) /\
  (forall r, r ∈ results -> ge (value r) zero = true ->
     maxFlag results ∈ results /\ ge (value (maxFlag results)) zero = true) /\
  maxFlag [record "toxicity" (of_decimal false 8 (-1));
           record "spam" (of_decimal false 8 (-1))]
    = record "toxicity" (of_decimal false 8 (-1)) /\
  status (row_of JNull JNull
            [record "toxicity" (of_decimal false 8 (-1));
             record "spam" (of_decimal false 8 (-1))]) = "flagged".
Proof.
  split; [reflexivity |]. split; [reflexivity |]. split; [reflexivity |].
  split; [reflexivity |].
  split; [exact (maxFlag_dominant results) |].
  split; [exact (maxFlag_supersedes results) |].
  split; vm_compute; reflexivity.
Qed.

(** ** The request handlers *)



Lemma invalid_content_spec (content : JSValue) :
  invalid_content content = true <->
  ~ exists s, content = JStr s /\ s <> EmptyString.
Proof.
  unfold invalid_content. destruct content as [| | b | x | [| c s] | l | ps]; cbn;
    try (destruct b); try (destruct (truthy x));
    (split;
     [intros H0 (s' & Hs' & Hs);
      first [discriminate H0 | discriminate Hs' | injection Hs' as <-; congruence]
     | try reflexivity]).
  intros H. exfalso. apply H. eexists. split; [reflexivity | discriminate].
Qed.

Lemma ToBoolean_falsy (v : JSValue) : ToBoolean v = false <-> falsy v.
Proof.
  destruct v as [| | [|] | [s | s | | s m e] | [| c r] | l | ps];
    cbn [ToBoolean truthy falsy]; split; (discriminate || tauto || reflexivity).
Qed.

(** C8, as stated, fails: an API key that is present but empty, or that
    is the number 0, is answered 401, not 403, although the key-store
    lookup does not accept it. *)
Lemma C8_counterexample :
  (let req := {| req_content := JStr "hello"; req_apikey := JStr EmptyString |} in
   invalid_content (req_content req) = false /\
   req_apikey req <> JUndefined /\
   fst (verifyApiKey sample_env (req_apikey req) initial_world) = Normal false /\
   post_moderate sample_env req initial_world =
     (Normal {| res_status := 401;
                res_body := ErrorBody "API key is required" None |},
      initial_world)) /\
  (let req := {| req_content := JStr "hello"; req_apikey := JNum zero |} in
   invalid_content (req_content req) = false /\
   req_apikey req <> JUndefined /\
   fst (verifyApiKey sample_env (req_apikey req) initial_world) = Normal false /\
   post_moderate sample_env req initial_world =
     (Normal {| res_status := 401;
                res_body := ErrorBody "API key is required" None |},
      initial_world)).
Proof. split; (split; [reflexivity | split; [discriminate | split; reflexivity]]). Qed.

(** C8, amended. For every POST /moderate request: if the content is
    missing, empty or not a string the response is 400; otherwise, if the
    API key is absent or another falsy value (null, false, 0, NaN, the
    empty string) the response is 401; otherwise, if the key-store lookup
    does not accept the key the response is 403.  In the first two cases
    nothing is asked of a collaborator, and in the third only the key
    lookup is made: no classifier call, no random draw, no insert. *)
Theorem C8_validation_order (env : Env) (req : Request) (w : World) :
  (invalid_content (req_content req) = true <->
   ~ exists s, req_content req = JStr s /\ s <> EmptyString) /\
  (invalid_content (req_content req) = true ->
   post_moderate env req w =
     (Normal {| res_status := 400;
                res_body := ErrorBody "Valid content string is required" None |},
      w)) /\
  (req_apikey req = JUndefined -> ToBoolean (req_apikey req) = false) /\
  (ToBoolean (req_apikey req) = false <-> falsy (req_apikey req)) /\
  (invalid_content (req_content req) = false ->
   ToBoolean (req_apikey req) = false ->
   post_moderate env req w =
     (Normal {| res_status := 401;
                res_body := ErrorBody "API key is required" None |},
      w)) /\
  (invalid_content (req_content req) = false ->
   ToBoolean (req_apikey req) = true ->
   fst (verifyApiKey env (req_apikey req) w) = Normal false ->
   post_moderate env req w =
     (Normal {| res_status := 403;
                res_body := ErrorBody "Invalid API key" None |},
      emit (KeyLookup (req_apikey req)) w)).
Proof.
  split; [apply invalid_content_spec |].
  split.
  { intros H. unfold post_moderate, try_catch. rewrite H. reflexivity. }
  split; [intros ->; reflexivity |].
  split; [apply ToBoolean_falsy |].
  split.
  { intros H1 H2. unfold post_moderate, try_catch. rewrite H1, H2. reflexivity. }
  intros H1 H2 H3. unfold post_moderate, try_catch, bind.
  rewrite H1, H2. cbn [negb]. rewrite verifyApiKey_eq in *. cbn [fst] in H3.
  injection H3 as ->. reflexivity.
Qed.

Lemma C8_validation_order_witness :
  post_moderate sample_env
    {| req_content := JStr "hello"; req_apikey := JStr "wrong-key" |}
    initial_world =
  (Normal {| res_status := 403; res_body := ErrorBody "Invalid API key" None |},
   emit (KeyLookup (JStr "wrong-key")) initial_world).
Proof.
  apply (C8_validation_order sample_env
           {| req_content := JStr "hello"; req_apikey := JStr "wrong-key" |}
           initial_world); reflexivity.
Defined.

Lemma formatResponse_elem (scores : gmap string number) (r : FlagRecord) :
  r ∈ formatResponse scores <->
  exists flag, flag ∈ FLAG_TYPES /\ r = record flag (or_zero (scores !! flag)).
Proof.
  unfold formatResponse. rewrite list_elem_of_In, in_map_iff.
  split.
  - intros (flag & H1 & H2). exists flag.
    split; [apply list_elem_of_In; exact H2 | symmetry; exact H1].
  - intros (flag & H1 & H2). exists flag.
    split; [symmetry; exact H2 | apply list_elem_of_In; exact H1].
Qed.

Lemma formatResponse_two_decimals (scores : gmap string number) :
  (forall flag v, scores !! flag = Some v -> two_decimals v) ->
  forall r, r ∈ formatResponse scores ->
    two_decimals (value r) /\ le zero (value r) = true /\ le (value r) one = true.
Proof.
  intros Hs r Hr. apply formatResponse_elem in Hr. destruct Hr as (flag & _ & ->).
  cbn [value record].
  assert (T : two_decimals (or_zero (scores !! flag))).
  { destruct (scores !! flag) as [v |] eqn:E; cbn [or_zero].
    - destruct (truthy v); [exact (Hs flag v E) |].
      exists 0. split; [lia | reflexivity].
    - exists 0. split; [lia | reflexivity]. }
  split; [exact T | exact (two_decimals_unit _ T)].
Qed.







(** ** The stored row *)

Lemma or_zero_score (scores : gmap string number) (flag : string) :
  score_mapping scores -> ge (or_zero (scores !! flag)) zero = true.
Proof.
  intros Hs. destruct (scores !! flag) as [v |] eqn:E; cbn [or_zero].
  - destruct (truthy v); [| reflexivity].
    rewrite <- le_ge_flip. exact (proj1 (Hs flag v E)).
  - reflexivity.
Qed.

(** With values that are not NaN and one of them at least 0, the value
    found by the scan is an upper bound of all values. *)
Lemma maxFlag_upper (results : list FlagRecord) (r0 : FlagRecord) :
  (forall r, r ∈ results -> is_nan (value r) = false) ->
  r0 ∈ results -> ge (value r0) zero = true ->
  forall r, r ∈ results -> le (value r) (value (maxFlag results)) = true.
Proof.
  intros Hnan Hr0 Hge r Hr.
  destruct (maxFlag_supersedes results r0 Hr0 Hge) as [Hin _].
  destruct (maxFlag_dominant results)
    as [[_ Hall] | (before & after & Hl & Hgt & Hbef & Haft)].
  - pose proof (ge_gt_trans _ _ _ Hge zero_gt_minus_one) as C.
    rewrite (Hall r0 Hr0) in C. discriminate C.
  - pose proof (Hnan _ Hin) as Hb. pose proof (Hnan _ Hr) as Hx.
    rewrite Hl in Hr. apply elem_of_app in Hr. destruct Hr as [Hr | Hr].
    + exact (not_ge_le _ _ Hx Hb (Hbef r Hr)).
    + apply elem_of_cons in Hr. destruct Hr as [-> | Hr].
      * exact (le_refl _ Hb).
      * exact (not_gt_le _ _ Hx Hb (Haft r Hr)).
Qed.

(** C10. The row stored for the formatted list of a score mapping names
    one of the six flag types as the dominant flag, never the null flag
    type of the initial record; its score is the formatted value of that
    flag, is at least every formatted value and is at least 0; the row has
    [user_id] null and [content_type] "text". *)
Theorem C10_stored_row (env : Env) (apikey content : JSValue)
  (scores : gmap string number) (w : World) :
  score_mapping scores ->
  let results := formatResponse scores in
  let row := row_of apikey content results in
  trace (snd (storeResultsInSupabase env apikey content results w))
    = (trace w ++ [Insert row])%list /\
  (exists flag, type (flags row) = Some flag /\ flag ∈ FLAG_TYPES /\
                score (flags row) = or_zero (scores !! flag)) /\
  (forall r, r ∈ results -> le (value r) (score (flags row)) = true) /\
  ge (score (flags row)) zero = true /\
  user_id row = JNull /\
  content_type row = "text".
Proof.
  intros Hs results row.
  split; [rewrite storeResultsInSupabase_eq; reflexivity |].
  assert (Hge : forall r, r ∈ results -> ge (value r) zero = true).
  { intros r Hr. apply formatResponse_elem in Hr. destruct Hr as (flag & _ & ->).
    exact (or_zero_score scores flag Hs). }
  assert (H0 : record "toxicity" (or_zero (scores !! "toxicity")) ∈ results).
  { apply formatResponse_elem. exists "toxicity". split; [| reflexivity].
    apply elem_of_cons. left. reflexivity. }
  destruct (maxFlag_supersedes results _ H0 (Hge _ H0)) as [Hin Hbest].
  cbn [row row_of flags type score user_id content_type].
  split.
  { apply formatResponse_elem in Hin. destruct Hin as (flag & Hflag & Heq).
    exists flag. fold results. rewrite Heq. repeat split. exact Hflag. }
  split.
  { apply (maxFlag_upper results (record "toxicity" (or_zero (scores !! "toxicity"))));
      [| exact H0 | exact (Hge _ H0)].
    intros r Hr. exact (ge_not_nan _ _ (Hge r Hr)). }
  split; [exact Hbest |]. split; reflexivity.
Qed.

Lemma sample_scores_mapping : score_mapping sample_scores.
Proof.
  unfold score_mapping, sample_scores.
  repeat (apply map_Forall_insert_2; [split; reflexivity |]).
  apply map_Forall_empty.
Qed.

Lemma C10_stored_row_witness :
  let row := row_of (JStr "good-key") (JStr "hello")
               (formatResponse sample_scores) in
  score_mapping sample_scores /\
  (exists flag, type (flags row) = Some flag /\ flag ∈ FLAG_TYPES /\
                score (flags row) = or_zero (sample_scores !! flag)) /\
  ge (score (flags row)) zero = true.
Proof.
  destruct (C10_stored_row sample_env (JStr "good-key") (JStr "hello")
              sample_scores initial_world sample_scores_mapping)
    as (_ & H1 & _ & H2 & _).
  split; [exact sample_scores_mapping |]. split; [exact H1 | exact H2].
Defined.

(** The dominant flag of the sample mapping: the first of the two flags
    that share the greatest value. *)
Example sample_scores_row :
  let row := row_of (JStr "good-key") (JStr "hello")
               (formatResponse sample_scores) in
  type (flags row) = Some "toxicity" /\
  score (flags row) = of_decimal false 8 (-1) /\
  flagged (flags row) = true /\
  status row = "flagged".
Proof. vm_compute. repeat split; reflexivity. Qed.

(** The last step of POST /moderate: the insert adds one event, the row of
    the formatted scores. *)
Ltac store_step scores Hs Hold :=
  rewrite storeResultsInSupabase_eq;
  match goal with |- context [stored ?env ?row] => destruct (stored env row) end;
  cbn [respond ret snd trace emit];
  let H := fresh "H" in
  intros H; apply elem_of_app in H; destruct H as [H | H];
  [ left; exact (Hold _ H)
  | apply list_elem_of_singleton in H; injection H as ->;
    right; exists scores; split; [exact Hs | reflexivity] ].

(** Every row that POST /moderate gives to the result table is the row of
    the formatted list of a score mapping: the statement on stored rows
    speaks of each of them. *)
Lemma post_moderate_rows (env : Env) (req : Request) (w : World)
  (row : StoredRow) :
  (forall i, random_draw (random_source env i)) ->
  Insert row ∈ trace (snd (post_moderate env req w)) ->
  Insert row ∈ trace w \/
  exists scores, score_mapping scores /\
    row = row_of (req_apikey req) (req_content req) (formatResponse scores).
Proof.
  intros Hrng. unfold post_moderate, try_catch at 1, bind.
  destruct (invalid_content (req_content req)); [cbn; tauto |].
  destruct (ToBoolean (req_apikey req)); [| cbn; tauto]. cbn [negb].
  rewrite verifyApiKey_eq.
  destruct (key_accepted env (req_apikey req)); cbn [negb].
  2:{ cbn [respond ret snd trace emit]. intros H. apply elem_of_app in H.
      destruct H as [H | H]; [left; exact H |].
      apply list_elem_of_singleton in H. discriminate H. }
  unfold try_catch. rewrite analyzeContentWithAI_eq.
  set (w1 := emit (ClassifierCall (req_content req))
               (emit (KeyLookup (req_apikey req)) w)).
  assert (Hw1 : forall r, Insert r ∈ trace w1 -> Insert r ∈ trace w).
  { intros r H. unfold w1 in H. cbn [trace emit] in H.
    repeat (apply elem_of_app in H; destruct H as [H | H];
            [| apply list_elem_of_singleton in H; discriminate H]).
    exact H. }
  assert (Hgen6 : forall w2, trace w2 = (trace w1 ++ replicate 6 RandomDraw)%list ->
                  forall r, Insert r ∈ trace w2 -> Insert r ∈ trace w).
  { intros w2 Htr r H. rewrite Htr in H. apply elem_of_app in H.
    destruct H as [H | H]; [exact (Hw1 r H) |].
    apply elem_of_replicate in H. destruct H as [H _]. discriminate H. }
  unfold classified.
  destruct (classifier env (req_content req)) as [e | e | s].
  - destruct (generateRandomScores_spec env w1)
      as (scores & w2 & Hgen & Htr & _). rewrite Hgen.
    pose proof (generateRandomScores_score_mapping _ _ _ _ Hrng Hgen) as Hs.
    store_step scores Hs (Hgen6 w2 Htr).
  - destruct (generateRandomScores_spec env w1)
      as (scores & w2 & Hgen & Htr & _). rewrite Hgen.
    pose proof (generateRandomScores_score_mapping _ _ _ _ Hrng Hgen) as Hs.
    store_step scores Hs (Hgen6 w2 Htr).
  - destruct (parseAndValidateScores s) as [scores | e] eqn:Hp.
    + pose proof (parseAndValidateScores_score_mapping _ _ Hp) as Hs.
      store_step scores Hs Hw1.
    + destruct (generateRandomScores_spec env w1)
        as (scores & w2 & Hgen & Htr & _). rewrite Hgen.
      pose proof (generateRandomScores_score_mapping _ _ _ _ Hrng Hgen) as Hs.
      store_step scores Hs (Hgen6 w2 Htr).
Qed.

(** * Further properties of the program *)

(** ** The handlers, case by case *)

Lemma generateRandomScores_eq (env : Env) (w : World) :
  generateRandomScores env w =
    (Normal (fallback_scores env (draws w)), after_fallback w).
Proof.
  destruct w as [t d]. unfold after_fallback. cbn [trace draws].
  replace (t ++ replicate 6 RandomDraw)%list
    with ((((((t ++ [RandomDraw]) ++ [RandomDraw]) ++ [RandomDraw])
             ++ [RandomDraw]) ++ [RandomDraw]) ++ [RandomDraw])%list
    by (rewrite <- !app_assoc; reflexivity).
  reflexivity.
Qed.

Lemma try_analyze_eq (env : Env) (content : JSValue) (w : World) :
  try_catch (analyzeContentWithAI env content)
    (fun error => generateRandomScores env) w =
  (Normal (fst (scores_used env content w)), snd (scores_used env content w)).
Proof.
  unfold try_catch, scores_used. rewrite analyzeContentWithAI_eq.
  destruct (classified env content) as [scores | e]; [reflexivity |].
  rewrite generateRandomScores_eq. reflexivity.
Qed.

Lemma post_test_moderate_eq (env : Env) (req : Request) (w : World) :
  post_test_moderate env req w =
    if invalid_content (req_content req)
    then (Normal {| res_status := 400;
                    res_body := ErrorBody "Valid content string is required" None |},
          w)
    else (Normal {| res_status := 200;
                    res_body :=
                      FlagList (formatResponse
                                  (fst (scores_used env (req_content req) w))) |},
          snd (scores_used env (req_content req) w)).
Proof.
  unfold post_test_moderate, try_catch at 1, bind.
  destruct (invalid_content (req_content req)); [reflexivity |].
  rewrite try_analyze_eq. reflexivity.
Qed.

Lemma post_moderate_eq (env : Env) (req : Request) (w : World) :
  post_moderate env req w =
    if invalid_content (req_content req)
    then (Normal {| res_status := 400;
                    res_body := ErrorBody "Valid content string is required" None |},
          w)
    else if ToBoolean (req_apikey req)
    then
      if key_accepted env (req_apikey req)
      then
        let su := scores_used env (req_content req)
                    (emit (KeyLookup (req_apikey req)) w) in
        let response := formatResponse (fst su) in
        let row := row_of (req_apikey req) (req_content req) response in
        (Normal
           match stored env row with
           | Normal _ => {| res_status := 200; res_body := FlagList response |}
           | Throw err =>
               {| res_status := 500;
                  res_body :=
                    ErrorBody "Internal server error" (Some (message err)) |}
           end,
         emit (Insert row) (snd su))
      else (Normal {| res_status := 403;
                      res_body := ErrorBody "Invalid API key" None |},
            emit (KeyLookup (req_apikey req)) w)
    else (Normal {| res_status := 401;
                    res_body := ErrorBody "API key is required" None |},
          w).
Proof.
  unfold post_moderate, try_catch at 1, bind.
  destruct (invalid_content (req_content req)); [reflexivity |].
  destruct (ToBoolean (req_apikey req)); [| reflexivity]. cbn [negb].
  rewrite verifyApiKey_eq.
  destruct (key_accepted env (req_apikey req)); [| reflexivity]. cbn [negb].
  rewrite try_analyze_eq, storeResultsInSupabase_eq. cbn zeta.
  destruct (stored env _); reflexivity.
Qed.

Lemma stored_spec (env : Env) (row : StoredRow) :
  match stored env row with
  | Normal data => result_table env row = InsertReturns data None
  | Throw err =>
      (exists data, result_table env row = InsertReturns data (Some err)) \/
      result_table env row = InsertThrows err
  end.
Proof.
  unfold stored. destruct (result_table env row) as [data [err |] | err].
  - left. exists data. reflexivity.
  - reflexivity.
  - right. reflexivity.
Qed.

Lemma key_accepted_spec (env : Env) (apikey : JSValue) :
  key_accepted env apikey = true <->
  exists data error,
    key_store env apikey = LookupReturns data error /\
    ToBoolean data = true /\ ToBoolean error = false.
Proof.
  unfold key_accepted. destruct (key_store env apikey) as [data error | e].
  - rewrite andb_true_iff, negb_true_iff. split.
    + intros [H1 H2]. exists data, error. auto.
    + intros (d & e & [= <- <-] & H1 & H2). auto.
  - split; [discriminate | intros (d & e' & [=] & _)].
Qed.

(** X1. POST /moderate always answers: no exception leaves the handler.
    The status is 400 exactly for an invalid content, 401 exactly for a
    valid content with a falsy key, 403 exactly for a valid content with a
    truthy key that the key store does not accept, and 200 or 500 exactly
    when the key is accepted; a body of flag records comes with status 200
    and only with it. *)
Theorem X1_moderate_status (env : Env) (req : Request) (w : World) :
  exists resp w',
    post_moderate env req w = (Normal resp, w') /\
    (res_status resp = 400 <-> invalid_content (req_content req) = true) /\
    (res_status resp = 401 <->
       invalid_content (req_content req) = false /\
       ToBoolean (req_apikey req) = false) /\
    (res_status resp = 403 <->
       invalid_content (req_content req) = false /\
       ToBoolean (req_apikey req) = true /\
       fst (verifyApiKey env (req_apikey req) w) = Normal false) /\
    (res_status resp = 200 \/ res_status resp = 500 <->
       invalid_content (req_content req) = false /\
       ToBoolean (req_apikey req) = true /\
       fst (verifyApiKey env (req_apikey req) w) = Normal true) /\
    (res_status resp = 200 <-> exists records, res_body resp = FlagList records).
Proof.
  rewrite post_moderate_eq, verifyApiKey_eq. cbn [fst].
  destruct (invalid_content (req_content req)).
  { eexists. eexists. split; [reflexivity |]. cbn [res_status res_body].
    repeat split; try discriminate; try tauto; try lia;
      try (intros (? & ?); discriminate); intros [? | ?]; discriminate. }
  destruct (ToBoolean (req_apikey req)).
  2:{ eexists. eexists. split; [reflexivity |]. cbn [res_status res_body].
      repeat split; try discriminate; try tauto; try lia;
        try (intros (? & ?); discriminate); try (intros (? & ? & ?); discriminate);
        intros [? | ?]; discriminate. }
  destruct (key_accepted env (req_apikey req)).
  2:{ eexists. eexists. split; [reflexivity |]. cbn [res_status res_body].
      repeat split; try discriminate; try tauto; try lia;
        try (intros (? & ?); discriminate); try (intros (? & ? & ?); discriminate);
        intros [? | ?]; discriminate. }
  cbn zeta. eexists. eexists. split; [reflexivity |].
  destruct (stored env _); cbn [res_status res_body];
    repeat split; try discriminate; try tauto; try lia;
      try (intros (? & ?); discriminate); try (intros (? & ? & ?); discriminate);
      try (intros _; eexists; reflexivity).
Qed.

(** X2. POST /test/moderate always answers, with status 400 exactly for an
    invalid content and status 200 with a body of flag records otherwise:
    it never answers 500.  It asks nothing of the key store and of the
    result table: the events it adds are a classifier call and random
    draws. *)
Theorem X2_test_moderate_status (env : Env) (req : Request) (w : World) :
  exists resp w',
    post_test_moderate env req w = (Normal resp, w') /\
    (res_status resp = 400 <-> invalid_content (req_content req) = true) /\
    (res_status resp = 200 <-> invalid_content (req_content req) = false) /\
    (res_status resp = 200 <-> exists records, res_body resp = FlagList records) /\
    exists evs, trace w' = (trace w ++ evs)%list /\
      Forall (fun ev => ev = ClassifierCall (req_content req) \/ ev = RandomDraw) evs.
Proof.
  rewrite post_test_moderate_eq.
  destruct (invalid_content (req_content req)).
  { eexists. eexists. split; [reflexivity |]. cbn [res_status res_body].
    split; [split; intros; reflexivity |].
    split; [split; intros; discriminate |].
    split; [split; [discriminate | intros (? & ?); discriminate] |].
    exists []. split; [rewrite app_nil_r; reflexivity | constructor]. }
  eexists. eexists. split; [reflexivity |]. cbn [res_status res_body].
  split; [split; intros; discriminate |].
  split; [split; intros; reflexivity |].
  split; [split; [intros _; eexists; reflexivity | intros; reflexivity] |].
  unfold scores_used. destruct (classified env (req_content req)); cbn [snd].
  - exists [ClassifierCall (req_content req)]. split; [reflexivity |].
    repeat constructor.
  - exists (ClassifierCall (req_content req) :: replicate 6 RandomDraw).
    split.
    + unfold after_fallback. cbn [trace emit]. rewrite <- app_assoc. reflexivity.
    + constructor; [left; reflexivity |]. cbn [replicate].
      repeat (constructor; [right; reflexivity |]). constructor.
Qed.

(** X3. For a valid content and a truthy key, POST /moderate answers 403
    exactly when the key store does not return a row without an error: a
    lookup that throws, that returns no row, or that returns a row
    together with an error is answered 403 (never 500), after the lookup
    alone. *)
Theorem X3_lookup_failure_is_403 (env : Env) (req : Request) (w : World) :
  invalid_content (req_content req) = false ->
  ToBoolean (req_apikey req) = true ->
  (~ exists data error,
       key_store env (req_apikey req) = LookupReturns data error /\
       ToBoolean data = true /\ ToBoolean error = false) ->
  post_moderate env req w =
    (Normal {| res_status := 403; res_body := ErrorBody "Invalid API key" None |},
     emit (KeyLookup (req_apikey req)) w).
Proof.
  intros H1 H2 H3. rewrite post_moderate_eq, H1, H2.
  destruct (key_accepted env (req_apikey req)) eqn:K; [| reflexivity].
  exfalso. apply H3. apply key_accepted_spec. exact K.
Qed.

Lemma X3_lookup_failure_is_403_witness :
  post_moderate unreachable_store_env sample_request initial_world =
    (Normal {| res_status := 403; res_body := ErrorBody "Invalid API key" None |},
     emit (KeyLookup (JStr "good-key")) initial_world).
Proof.
  apply (X3_lookup_failure_is_403 unreachable_store_env sample_request
           initial_world); [reflexivity | reflexivity |].
  intros (data & error & H & _). discriminate H.
Defined.

(** X4. When POST /moderate answers 200, the last thing it did was to
    insert the row computed from exactly the records of the body, for the
    key and the content of the request, and the insert returned without
    error. *)
Theorem X4_ok_means_stored (env : Env) (req : Request) (w w' : World)
  (resp : Response) :
  post_moderate env req w = (Normal resp, w') ->
  res_status resp = 200 ->
  exists records data,
    res_body resp = FlagList records /\
    last (trace w') =
      Some (Insert (row_of (req_apikey req) (req_content req) records)) /\
    result_table env (row_of (req_apikey req) (req_content req) records)
      = InsertReturns data None.
Proof.
  rewrite post_moderate_eq.
  destruct (invalid_content (req_content req));
    [intros [= <- <-]; discriminate |].
  destruct (ToBoolean (req_apikey req)); [| intros [= <- <-]; discriminate].
  destruct (key_accepted env (req_apikey req)); [| intros [= <- <-]; discriminate].
  cbn zeta. set (su := scores_used _ _ _).
  pose proof (stored_spec env
                (row_of (req_apikey req) (req_content req)
                   (formatResponse (fst su)))) as Hst.
  destruct (stored env _) as [data | err]; intros [= <- <-]; [| discriminate].
  intros _. exists (formatResponse (fst su)), data. cbn [res_body trace emit].
  split; [reflexivity |]. split; [apply last_snoc | exact Hst].
Qed.

Lemma X4_ok_means_stored_witness :
  exists records data,
    res_body {| res_status := 200;
                res_body := FlagList (formatResponse (fallback_scores sample_env 0)) |}
      = FlagList records /\
    last (trace (snd (post_moderate sample_env sample_request initial_world))) =
      Some (Insert (row_of (JStr "good-key") (JStr "hello") records)) /\
    result_table sample_env (row_of (JStr "good-key") (JStr "hello") records)
      = InsertReturns data None.
Proof.
  apply (X4_ok_means_stored sample_env sample_request initial_world
           (snd (post_moderate sample_env sample_request initial_world))).
  - vm_compute. reflexivity.
  - reflexivity.
Defined.

(** X5. When POST /moderate answers 500, the last thing it did was an
    insert that reported an error or was rejected, and the body is
    "Internal server error" with the message of that error as details. *)
Theorem X5_error_means_insert_failed (env : Env) (req : Request)
  (w w' : World) (resp : Response) :
  post_moderate env req w = (Normal resp, w') ->
  res_status resp = 500 ->
  exists row err,
    last (trace w') = Some (Insert row) /\
    api_key row = req_apikey req /\ content row = req_content req /\
    ((exists data, result_table env row = InsertReturns data (Some err)) \/
     result_table env row = InsertThrows err) /\
    res_body resp = ErrorBody "Internal server error" (Some (message err)).
Proof.
  rewrite post_moderate_eq.
  destruct (invalid_content (req_content req));
    [intros [= <- <-]; discriminate |].
  destruct (ToBoolean (req_apikey req)); [| intros [= <- <-]; discriminate].
  destruct (key_accepted env (req_apikey req)); [| intros [= <- <-]; discriminate].
  cbn zeta. set (su := scores_used _ _ _).
  set (row := row_of (req_apikey req) (req_content req) (formatResponse (fst su))).
  pose proof (stored_spec env row) as Hst.
  destruct (stored env row) as [data | err]; intros [= <- <-]; [discriminate |].
  intros _. exists row, err. cbn [res_body trace emit].
  split; [apply last_snoc |]. repeat split. exact Hst.
Qed.

Lemma X5_error_means_insert_failed_witness :
  exists row err,
    last (trace (snd (post_moderate failing_table_env sample_request initial_world)))
      = Some (Insert row) /\
    api_key row = JStr "good-key" /\ content row = JStr "hello" /\
    ((exists data, result_table failing_table_env row = InsertReturns data (Some err)) \/
     result_table failing_table_env row = InsertThrows err) /\
    res_body {| res_status := 500;
                res_body := ErrorBody "Internal server error"
                              (Some "permission denied for table") |}
      = ErrorBody "Internal server error" (Some (message err)).
Proof.
  apply (X5_error_means_insert_failed failing_table_env sample_request
           initial_world
           (snd (post_moderate failing_table_env sample_request initial_world))).
  - vm_compute. reflexivity.
  - reflexivity.
Defined.


(** ** The scores that the handlers answer with *)

Lemma parseAndValidateScores_normal (aiResponse : string)
  (validated : gmap string number) :
  parseAndValidateScores aiResponse = Normal validated ->
  exists v, JSON.parse aiResponse = Normal v /\
            validated = normalized_from v FLAG_TYPES ∅.
Proof.
  intros H. destruct (JSON.parse aiResponse) as [v | e] eqn:Hp.
  - destruct (readable v) eqn:Hv.
    + rewrite (parseAndValidateScores_readable _ _ Hp Hv) in H.
      destruct (convertible v FLAG_TYPES); [| discriminate H].
      exists v. split; [reflexivity | congruence].
    + rewrite (parseAndValidateScores_unreadable _ _ Hp Hv) in H. discriminate H.
  - rewrite (parseAndValidateScores_syntax _ _ Hp) in H. discriminate H.
Qed.

Lemma normalized_two_decimals (v : JSValue) (flag : string) (x : number) :
  normalized_from v FLAG_TYPES ∅ !! flag = Some x -> two_decimals x.
Proof.
  rewrite normalized_from_lookup.
  destruct (decide (flag ∈ FLAG_TYPES)); [| rewrite lookup_empty; discriminate].
  intros [= <-]. apply spec_normalize_two_decimals.
Qed.

Lemma fallback_two_decimals (env : Env) (d : nat) (flag : string) (x : number) :
  (forall i, random_draw (random_source env i)) ->
  fallback_scores env d !! flag = Some x -> two_decimals x.
Proof.
  intros Hrng Hx. unfold fallback_scores in Hx.
  repeat (apply lookup_insert_Some in Hx;
          destruct Hx as [[_ <-] | [_ Hx]];
          [apply round2_two_decimals, random_draw_unit, Hrng |]).
  rewrite lookup_empty in Hx. discriminate Hx.
Qed.

Lemma scores_used_two_decimals (env : Env) (content : JSValue) (w : World)
  (flag : string) (x : number) :
  (forall i, random_draw (random_source env i)) ->
  fst (scores_used env content w) !! flag = Some x -> two_decimals x.
Proof.
  intros Hrng. unfold scores_used, classified.
  destruct (classifier env content) as [e | e | s]; cbn [fst];
    try exact (fallback_two_decimals env (draws w) flag x Hrng).
  destruct (parseAndValidateScores s) as [scores | e] eqn:Hp; cbn [fst];
    try exact (fallback_two_decimals env (draws w) flag x Hrng).
  destruct (parseAndValidateScores_normal _ _ Hp) as (v & _ & ->).
  apply normalized_two_decimals.
Qed.

(** The scores do not depend on the events recorded so far. *)
Lemma scores_used_emit (env : Env) (content : JSValue) (w : World) (ev : Event) :
  fst (scores_used env content (emit ev w)) = fst (scores_used env content w).
Proof.
  unfold scores_used. destruct (classified env content); reflexivity.
Qed.

(** X7. When the classifier answers a payload that the normalizer
    accepts, both handlers format the normalized scores of that payload
    and make no random draw: POST /test/moderate answers 200 with them
    after the classifier call alone, and POST /moderate, once the key is
    accepted, goes from the classifier call straight to the insert of the
    row of these records. *)
Theorem X7_classifier_scores_used (env : Env) (req : Request) (w : World)
  (aiResponse : string) (scores : gmap string number) :
  invalid_content (req_content req) = false ->
  classifier env (req_content req) = ReplyContent aiResponse ->
  parseAndValidateScores aiResponse = Normal scores ->
  post_test_moderate env req w =
    (Normal {| res_status := 200; res_body := FlagList (formatResponse scores) |},
     emit (ClassifierCall (req_content req)) w) /\
  (ToBoolean (req_apikey req) = true ->
   fst (verifyApiKey env (req_apikey req) w) = Normal true ->
   exists resp,
     post_moderate env req w =
       (Normal resp,
        emit (Insert (row_of (req_apikey req) (req_content req)
                        (formatResponse scores)))
          (emit (ClassifierCall (req_content req))
             (emit (KeyLookup (req_apikey req)) w))) /\
     (res_status resp = 200 -> res_body resp = FlagList (formatResponse scores))).
Proof.
  intros Hc Hcl Hp.
  assert (Hsu : forall w0, scores_used env (req_content req) w0 =
                           (scores, emit (ClassifierCall (req_content req)) w0)).
  { intros w0. unfold scores_used, classified. rewrite Hcl, Hp. reflexivity. }
  split.
  - rewrite post_test_moderate_eq, Hc, Hsu. reflexivity.
  - intros Hk Hv. rewrite verifyApiKey_eq in Hv. cbn [fst] in Hv.
    injection Hv as Hv. rewrite post_moderate_eq, Hc, Hk, Hv, Hsu. cbn zeta.
    cbn [fst snd]. eexists. split; [reflexivity |].
    destruct (stored env _); cbn [res_status res_body];
      [reflexivity | discriminate].
Qed.

Lemma X7_classifier_scores_used_witness :
  exists scores,
    parseAndValidateScores sample_payload = Normal scores /\
    post_test_moderate answering_env sample_request initial_world =
      (Normal {| res_status := 200; res_body := FlagList (formatResponse scores) |},
       emit (ClassifierCall (JStr "hello")) initial_world).
Proof.
  destruct (parseAndValidateScores sample_payload) as [scores | e] eqn:Hp;
    [| vm_compute in Hp; discriminate Hp].
  exists scores. split; [reflexivity |].
  exact (proj1 (X7_classifier_scores_used answering_env sample_request
                  initial_world sample_payload scores eq_refl eq_refl Hp)).
Defined.

(** X8. With a random source that obeys the contract of [Math.random],
    every response of status 200, of either handler, carries the six flag
    records in the declared order, each with a value [n / 100] of
    [0,1]. *)
Theorem X8_ok_body_is_valid (env : Env) (req : Request) (w w' : World)
  (resp : Response) :
  (forall i, random_draw (random_source env i)) ->
  post_moderate env req w = (Normal resp, w') \/
  post_test_moderate env req w = (Normal resp, w') ->
  res_status resp = 200 ->
  exists records,
    res_body resp = FlagList records /\
    map flag_type records = map Some FLAG_TYPES /\
    forall r, r ∈ records ->
      two_decimals (value r) /\ le zero (value r) = true /\ le (value r) one = true.
Proof.
  intros Hrng [H | H] Hst.
  - rewrite post_moderate_eq in H.
    destruct (invalid_content (req_content req));
      [injection H as <- <-; discriminate Hst |].
    destruct (ToBoolean (req_apikey req));
      [| injection H as <- <-; discriminate Hst].
    destruct (key_accepted env (req_apikey req));
      [| injection H as <- <-; discriminate Hst].
    cbn zeta in H. destruct (stored env _); injection H as <- <-;
      [| discriminate Hst].
    eexists. split; [reflexivity |]. split; [reflexivity |].
    apply formatResponse_two_decimals. intros flag x.
    apply scores_used_two_decimals. exact Hrng.
  - rewrite post_test_moderate_eq in H.
    destruct (invalid_content (req_content req));
      injection H as <- <-; [discriminate Hst |].
    eexists. split; [reflexivity |]. split; [reflexivity |].
    apply formatResponse_two_decimals. intros flag x.
    apply scores_used_two_decimals. exact Hrng.
Qed.

Lemma X8_ok_body_is_valid_witness :
  exists records,
    res_body {| res_status := 200;
                res_body := FlagList (formatResponse (fallback_scores sample_env 0)) |}
      = FlagList records /\
    map flag_type records = map Some FLAG_TYPES /\
    forall r, r ∈ records ->
      two_decimals (value r) /\ le zero (value r) = true /\ le (value r) one = true.
Proof.
  apply (X8_ok_body_is_valid sample_env sample_request initial_world
           (snd (post_moderate sample_env sample_request initial_world))).
  - exact sample_env_draws.
  - left. vm_compute. reflexivity.
  - reflexivity.
Defined.

(** X9. The test endpoint answers what the real endpoint answers: when
    POST /moderate answers 200, POST /test/moderate answers the same
    response to the same request. *)
Theorem X9_endpoints_agree (env : Env) (req : Request) (w w' : World)
  (resp : Response) :
  post_moderate env req w = (Normal resp, w') ->
  res_status resp = 200 ->
  fst (post_test_moderate env req w) = Normal resp.
Proof.
  rewrite post_moderate_eq, post_test_moderate_eq.
  destruct (invalid_content (req_content req));
    [intros [= <- <-]; discriminate |].
  destruct (ToBoolean (req_apikey req)); [| intros [= <- <-]; discriminate].
  destruct (key_accepted env (req_apikey req)); [| intros [= <- <-]; discriminate].
  cbn zeta. rewrite scores_used_emit.
  destruct (stored env _); intros [= <- <-]; [| discriminate].
  reflexivity.
Qed.

Lemma X9_endpoints_agree_witness :
  fst (post_test_moderate sample_env sample_request initial_world) =
    Normal {| res_status := 200;
              res_body := FlagList (formatResponse (fallback_scores sample_env 0)) |}.
Proof.
  apply (X9_endpoints_agree sample_env sample_request initial_world
           (snd (post_moderate sample_env sample_request initial_world))).
  - vm_compute. reflexivity.
  - reflexivity.
Defined.

Lemma valid_content_spec (content : JSValue) :
  invalid_content content = false ->
  exists s, content = JStr s /\ s <> EmptyString.
Proof.
  unfold invalid_content.
  destruct content as [| | [|] | x | [| c s] | l | ps]; cbn;
    try discriminate; try (destruct (truthy x); discriminate).
  intros _. eexists. split; [reflexivity | discriminate].
Qed.

(** X10. Whatever POST /moderate stores, it stores for a request that
    passed the checks: the row has the key and the content of the
    request, the content is a non-empty string, and the key store
    accepted the key. *)
Theorem X10_stored_only_when_accepted (env : Env) (req : Request) (w : World)
  (row : StoredRow) :
  Insert row ∈ trace (snd (post_moderate env req w)) ->
  Insert row ∈ trace w \/
  (api_key row = req_apikey req /\
   content row = req_content req /\
   (exists s, req_content req = JStr s /\ s <> EmptyString) /\
   fst (verifyApiKey env (req_apikey req) w) = Normal true).
Proof.
  rewrite post_moderate_eq, verifyApiKey_eq. cbn [fst].
  destruct (invalid_content (req_content req)) eqn:Hc; [cbn [snd]; tauto |].
  destruct (ToBoolean (req_apikey req)); [| cbn [snd]; tauto].
  destruct (key_accepted env (req_apikey req)).
  2:{ cbn [snd trace emit]. intros H. apply elem_of_app in H.
      destruct H as [H | H]; [left; exact H |].
      apply list_elem_of_singleton in H. discriminate H. }
  cbn zeta. cbn [snd trace emit]. intros H. apply elem_of_app in H.
  destruct H as [H | H].
  - left. unfold scores_used in H.
    destruct (classified env (req_content req)); cbn [snd] in H;
      unfold after_fallback in H; cbn [trace emit] in H.
    + repeat (apply elem_of_app in H; destruct H as [H | H];
              [| apply list_elem_of_singleton in H; discriminate H]).
      exact H.
    + apply elem_of_app in H. destruct H as [H | H].
      * repeat (apply elem_of_app in H; destruct H as [H | H];
                [| apply list_elem_of_singleton in H; discriminate H]).
        exact H.
      * apply elem_of_replicate in H. destruct H as [H _]. discriminate H.
  - right. apply list_elem_of_singleton in H. injection H as ->.
    split; [reflexivity |]. split; [reflexivity |]. split; [| reflexivity].
    exact (valid_content_spec _ Hc).
Qed.

Lemma X10_stored_only_when_accepted_witness :
  let row := row_of (JStr "good-key") (JStr "hello")
               (formatResponse (fallback_scores sample_env 0)) in
  Insert row ∈ trace initial_world \/
  (api_key row = req_apikey sample_request /\
   content row = req_content sample_request /\
   (exists s, req_content sample_request = JStr s /\ s <> EmptyString) /\
   fst (verifyApiKey sample_env (req_apikey sample_request) initial_world)
     = Normal true).
Proof.
  apply (X10_stored_only_when_accepted sample_env sample_request initial_world).
  vm_compute. apply list_elem_of_In. repeat (try (left; reflexivity); right).
Defined.

(** ** The stored summary *)

Lemma ge_0_7_ge_0_5 (v : number) : ge v lit_0_7 = true -> ge v lit_0_5 = true.
Proof.
  intros H. apply gt_ge. apply (ge_gt_trans v lit_0_7 lit_0_5 H). reflexivity.
Qed.

Lemma lt_0_3_not_ge_0_5 (v : number) : lt v lit_0_3 = true -> ge v lit_0_5 = false.
Proof.
  intros H. rewrite lt_gt_flip in H.
  destruct (ge v lit_0_5) eqn:G; [| reflexivity].
  pose proof (gt_ge_trans _ _ _ H G) as C. vm_compute in C. discriminate C.
Qed.

(** X11. In every stored row the status and the flagged field agree: a
    row of status "flagged" is flagged, a row of status "clean" is not,
    and there is no fourth status. *)
Theorem X11_status_flagged_agree (apikey content : JSValue)
  (results : list FlagRecord) :
  let row := row_of apikey content results in
  (status row = "flagged" \/ status row = "borderline" \/ status row = "clean") /\
  (status row = "flagged" -> flagged (flags row) = true) /\
  (status row = "clean" -> flagged (flags row) = false).
Proof.
  cbn zeta. unfold row_of. cbn [status flags flagged]. unfold status_of.
  destruct (ge (value (maxFlag results)) lit_0_7) eqn:G7.
  - split; [left; reflexivity |]. split; [| discriminate].
    intros _. exact (ge_0_7_ge_0_5 _ G7).
  - destruct (lt (value (maxFlag results)) lit_0_3) eqn:L3.
    + split; [right; right; reflexivity |]. split; [discriminate |].
      intros _. exact (lt_0_3_not_ge_0_5 _ L3).
    + split; [right; left; reflexivity |]. split; discriminate.
Qed.

Lemma maxFlag_none_above (results : list FlagRecord) :
  (forall r, r ∈ results -> gt (value r) minus_one = false) ->
  maxFlag results = no_flag.
Proof.
  intros Hall.
  destruct (maxFlag_dominant results)
    as [[Hb _] | (before & after & Hl & Hgt & _)]; [exact Hb |].
  rewrite (Hall (maxFlag results)) in Hgt; [discriminate Hgt |].
  rewrite Hl at 2. apply elem_of_app. right. apply elem_of_cons. left. reflexivity.
Qed.

(** X12. When no record has a value above -1 (an empty list, values that
    are NaN, values of -1 or less), the stored row names no flag: its type
    is null, its score -1, it is not flagged and its status is "clean". *)
Theorem X12_no_dominant_flag (apikey content : JSValue)
  (results : list FlagRecord) :
  (forall r, r ∈ results -> gt (value r) minus_one = false) ->
  let row := row_of apikey content results in
  type (flags row) = None /\
  score (flags row) = minus_one /\
  flagged (flags row) = false /\
  status row = "clean".
Proof.
  intros Hall. cbn zeta. unfold row_of. cbn [status flags flagged type score].
  rewrite (maxFlag_none_above results Hall). repeat split.
Qed.

Lemma X12_no_dominant_flag_witness :
  let row := row_of (JStr "good-key") (JStr "hello")
               [record "toxicity" NaN; record "spam" (of_decimal true 2 0)] in
  type (flags row) = None /\
  score (flags row) = minus_one /\
  flagged (flags row) = false /\
  status row = "clean".
Proof.
  apply (X12_no_dominant_flag (JStr "good-key") (JStr "hello")
           [record "toxicity" NaN; record "spam" (of_decimal true 2 0)]).
  intros r Hr. apply elem_of_cons in Hr. destruct Hr as [-> | Hr]; [reflexivity |].
  apply list_elem_of_singleton in Hr. rewrite Hr. reflexivity.
Defined.

Lemma gt_irrefl (a : number) : gt a a = false.
Proof.
  unfold gt, Number.compare. destruct (real_of a) as [x |]; [| reflexivity].
  rewrite xcompare_refl. reflexivity.
Qed.

(** No record has a value above the one of the record that the scan
    returns. *)
Lemma maxFlag_no_greater (results : list FlagRecord) (x : FlagRecord) :
  x ∈ results -> gt (value x) (value (maxFlag results)) = false.
Proof.
  intros Hx.
  destruct (maxFlag_dominant results)
    as [[Hb Hall] | (before & after & Hl & Hgt & Hbef & Haft)].
  - rewrite Hb. exact (Hall x Hx).
  - rewrite Hl in Hx. apply elem_of_app in Hx. destruct Hx as [Hx | Hx].
    + destruct (gt (value x) (value (maxFlag results))) eqn:G; [| reflexivity].
      rewrite <- (Hbef x Hx). symmetry. exact (gt_ge _ _ G).
    + apply elem_of_cons in Hx. destruct Hx as [-> | Hx];
        [apply gt_irrefl | exact (Haft x Hx)].
Qed.

(** X13. The score of the stored row is never NaN and never below -1,
    and no record of the list has a greater value. *)
Theorem X13_stored_score_bounds (apikey content : JSValue)
  (results : list FlagRecord) :
  let row := row_of apikey content results in
  is_nan (score (flags row)) = false /\
  ge (score (flags row)) minus_one = true /\
  Forall (fun r => gt (value r) (score (flags row)) = false) results.
Proof.
  cbn zeta. unfold row_of. cbn [flags score].
  assert (H : ge (value (maxFlag results)) minus_one = true).
  { destruct (maxFlag_dominant results)
      as [[Hb _] | (before & after & _ & Hgt & _)].
    - rewrite Hb. reflexivity.
    - exact (gt_ge _ _ Hgt). }
  split; [exact (ge_not_nan _ _ H) |]. split; [exact H |].
  apply Forall_forall. intros r Hr. exact (maxFlag_no_greater results r Hr).
Qed.







(** ** More on the normalizer *)

Lemma normalized_flag (aiResponse : string) (props : list (string * JSValue))
  (validated : gmap string number) (flag : string) :
  JSON.parse aiResponse = Normal (JObj props) ->
  parseAndValidateScores aiResponse = Normal validated ->
  flag ∈ FLAG_TYPES ->
  validated !! flag =
    Some (spec_normalize (default JUndefined (assoc_get flag props))).
Proof.
  intros Hp Hv Hflag.
  destruct (parseAndValidateScores_normal _ _ Hv) as (v & Hp' & ->).
  rewrite Hp in Hp'. injection Hp' as <-.
  rewrite normalized_from_lookup, decide_True by exact Hflag. reflexivity.
Qed.

Lemma compare_flip (a b : number) :
  Number.compare b a = option_map CompOpp (Number.compare a b).
Proof.
  unfold Number.compare.
  destruct (real_of a) as [x |], (real_of b) as [y |]; try reflexivity.
  cbn [option_map]. rewrite (xcompare_antisym x y). reflexivity.
Qed.

Lemma spec_normalize_above (x : number) :
  gt x one = true -> spec_normalize (JNum x) = one.
Proof.
  intros H.
  assert (C : Number.compare one x = Some Lt).
  { rewrite compare_flip. unfold gt in H.
    destruct (Number.compare x one) as [[| |] |]; try discriminate H. reflexivity. }
  destruct x as [s | s | | s m e]; try discriminate H.
  - destruct s; [discriminate H | reflexivity].
  - unfold spec_normalize. cbn [parseFloat_value is_neg_zero isNaN is_nan].
    unfold Math.min. rewrite C. reflexivity.
Qed.

Lemma spec_normalize_below (x : number) :
  le x zero = true -> spec_normalize (JNum x) = zero.
Proof.
  intros H. destruct x as [s | s | | s m e]; try discriminate H.
  - destruct s; reflexivity.
  - destruct s; [reflexivity | discriminate H].
  - destruct s.
    + unfold spec_normalize. cbn [parseFloat_value is_neg_zero isNaN is_nan].
      unfold Math.min. rewrite one_eq, compare_pos_neg.
      unfold Math.max. rewrite zero_eq, compare_zero_neg. reflexivity.
    + rewrite le_ge_flip in H. unfold ge in H.
      rewrite zero_eq, compare_zero_pos in H. discriminate H.
Qed.

(** X15. The normalizer saturates: in a payload that it accepts, a flag
    whose value is a number above 1 (Infinity included) is scored exactly
    1, and a flag whose value is a number that is 0 or less is scored
    exactly 0. *)
Theorem X15_normalizer_saturates (aiResponse : string)
  (props : list (string * JSValue)) (validated : gmap string number)
  (flag : string) (x : number) :
  JSON.parse aiResponse = Normal (JObj props) ->
  parseAndValidateScores aiResponse = Normal validated ->
  flag ∈ FLAG_TYPES ->
  assoc_get flag props = Some (JNum x) ->
  (gt x one = true -> validated !! flag = Some one) /\
  (le x zero = true -> validated !! flag = Some zero).
Proof.
  intros Hp Hv Hflag Hx.
  rewrite (normalized_flag _ _ _ _ Hp Hv Hflag), Hx. cbn [default].
  split; intros H; f_equal;
    [exact (spec_normalize_above x H) | exact (spec_normalize_below x H)].
Qed.

Lemma X15_normalizer_saturates_witness :
  (gt (of_decimal false 1 400) one = true ->
   normalized_from (JObj [("spam", JNum (of_decimal false 1 400))]) FLAG_TYPES ∅
     !! "spam" = Some one) /\
  (le (of_decimal false 1 400) zero = true ->
   normalized_from (JObj [("spam", JNum (of_decimal false 1 400))]) FLAG_TYPES ∅
     !! "spam" = Some zero).
Proof.
  apply (X15_normalizer_saturates (json_object1 "spam" "1e400")
           [("spam", JNum (of_decimal false 1 400))]).
  - vm_compute. reflexivity.
  - vm_compute. reflexivity.
  - apply list_elem_of_In. vm_compute. tauto.
  - reflexivity.
Defined.

(** X16. In a payload that the normalizer accepts, a flag that is absent
    is scored 0, and so is a flag whose value is null, a boolean, an
    object or the empty array. *)
Theorem X16_not_a_number_is_zero (aiResponse : string)
  (props : list (string * JSValue)) (validated : gmap string number)
  (flag : string) :
  JSON.parse aiResponse = Normal (JObj props) ->
  parseAndValidateScores aiResponse = Normal validated ->
  flag ∈ FLAG_TYPES ->
  match assoc_get flag props with
  | None | Some JNull | Some (JBool _) | Some (JObj _) | Some (JArr []) =>
      validated !! flag = Some zero
  | _ => True
  end.
Proof.
  intros Hp Hv Hflag. rewrite (normalized_flag _ _ _ _ Hp Hv Hflag).
  destruct (assoc_get flag props) as [[| | b | x | s | [| v l] | ps] |];
    try exact I; reflexivity.
Qed.

Lemma X16_not_a_number_is_zero_witness :
  normalized_from (JObj [("toxicity", JStr "abc");
                         ("spam", JNum (of_decimal false 857 (-3)))])
    FLAG_TYPES ∅ !! "violence" = Some zero.
Proof.
  apply (X16_not_a_number_is_zero sample_payload
           [("toxicity", JStr "abc"); ("spam", JNum (of_decimal false 857 (-3)))]
           _ "violence").
  - vm_compute. reflexivity.
  - vm_compute. reflexivity.
  - apply list_elem_of_In. vm_compute. tauto.
Defined.

Lemma grid_fixed_all : forallb (fun i => grid_fixed (Z.of_nat i)) (seq 0 101) = true.
Proof. vm_compute. reflexivity. Qed.

Lemma spec_normalize_fixed (x : number) :
  two_decimals x -> spec_normalize (JNum x) = x.
Proof.
  intros (n & Hn & ->). pose proof grid_fixed_all as G.
  rewrite forallb_forall in G. specialize (G (Z.to_nat n)).
  rewrite Z2Nat.id in G by lia. unfold grid_fixed in G.
  assert (Hin : In (Z.to_nat n) (seq 0 101)) by (apply in_seq; lia).
  apply G in Hin. apply bool_decide_eq_true in Hin. exact Hin.
Qed.

(** X17. The normalizer is idempotent: a flag whose value is already a
    number [n / 100] of [0,1], as the scores that the normalizer returns
    are, is scored that same number, although 0.29 * 100 is not 29 in
    binary arithmetic. *)
Theorem X17_normalizer_idempotent (aiResponse : string)
  (props : list (string * JSValue)) (validated : gmap string number)
  (flag : string) (x : number) :
  JSON.parse aiResponse = Normal (JObj props) ->
  parseAndValidateScores aiResponse = Normal validated ->
  flag ∈ FLAG_TYPES ->
  assoc_get flag props = Some (JNum x) ->
  two_decimals x ->
  validated !! flag = Some x.
Proof.
  intros Hp Hv Hflag Hx Hgrid.
  rewrite (normalized_flag _ _ _ _ Hp Hv Hflag), Hx. cbn [default].
  f_equal. exact (spec_normalize_fixed x Hgrid).
Qed.

Lemma X17_normalizer_idempotent_witness :
  normalized_from (JObj [("toxicity", JNum (of_decimal false 29 (-2)))])
    FLAG_TYPES ∅ !! "toxicity" = Some (of_decimal false 29 (-2)) /\
  mul (of_decimal false 29 (-2)) hundred <> of_Z 29.
Proof.
  split; [| vm_compute; discriminate].
  apply (X17_normalizer_idempotent (json_object1 "toxicity" "0.29")
           [("toxicity", JNum (of_decimal false 29 (-2)))]).
  - vm_compute. reflexivity.
  - vm_compute. reflexivity.
  - apply list_elem_of_In. vm_compute. tauto.
  - reflexivity.
  - exists 29. split; [lia | reflexivity].
Defined.

(** ** More on the formatter *)

(** X18. The formatter never emits NaN or -0: the value of a record is a
    number that is not NaN and, when it is zero, is +0.  (A value that is
    neither NaN nor zero is passed as it is: the formatter does not
    clamp.) *)
Theorem X18_formatResponse_values (scores : gmap string number) :
  Forall (fun r => is_nan (value r) = false /\ is_neg_zero (value r) = false)
    (formatResponse scores) /\
  (forall flag x, scores !! flag = Some x -> truthy x = true ->
                  or_zero (scores !! flag) = x).
Proof.
  split.
  - apply Forall_forall. intros r Hr. apply formatResponse_elem in Hr.
    destruct Hr as (flag & _ & ->). cbn [value record].
    destruct (scores !! flag) as [[s | s | | s m e] |]; cbn; auto.
  - intros flag x -> Hx. cbn [or_zero]. rewrite Hx. reflexivity.
Qed.

(** X19. The formatter reads the six flags and nothing else: two
    mappings that agree on the six flags are formatted alike, so that
    entries under other keys are ignored. *)
Theorem X19_formatResponse_reads_flags (scores scores' : gmap string number) :
  (forall flag, flag ∈ FLAG_TYPES -> scores !! flag = scores' !! flag) ->
  formatResponse scores = formatResponse scores'.
Proof.
  intros H. unfold formatResponse. apply map_ext_in. intros flag Hflag.
  rewrite (H flag) by (apply list_elem_of_In; exact Hflag). reflexivity.
Qed.

Lemma X19_formatResponse_reads_flags_witness :
  formatResponse (<["confidence" := one]> sample_scores)
    = formatResponse sample_scores.
Proof.
  apply (X19_formatResponse_reads_flags
           (<["confidence" := one]> sample_scores) sample_scores).
  intros flag Hflag. apply lookup_insert_ne. intros <-.
  apply list_elem_of_In in Hflag. vm_compute in Hflag.
  repeat (destruct Hflag as [Hflag | Hflag]; [discriminate Hflag |]).
  exact Hflag.
Defined.

Lemma or_zero_two_decimals (x : number) : two_decimals x -> or_zero (Some x) = x.
Proof.
  intros (n & Hn & ->). pose proof (grid_ok_range n Hn) as G. unfold grid_ok in G.
  repeat (apply andb_prop in G; destruct G as [G ?]).
  match goal with
  | H : bool_decide (truthy _ = _) = true |- _ =>
      apply bool_decide_eq_true in H; rename H into Ht
  end.
  cbn [or_zero]. rewrite Ht.
  destruct (Z.eqb_spec n 0) as [-> | Hn0]; reflexivity.
Qed.

(** X20. Formatting loses nothing of a normalized mapping: for the
    mapping that the normalizer returns, the record of each flag carries
    exactly the score of the flag. *)
Theorem X20_format_after_normalize (aiResponse : string)
  (validated : gmap string number) :
  parseAndValidateScores aiResponse = Normal validated ->
  forall (i : nat) flag, FLAG_TYPES !! i = Some flag ->
    exists x, validated !! flag = Some x /\
              formatResponse validated !! i = Some (record flag x).
Proof.
  intros Hv i flag Hi.
  destruct (parseAndValidateScores_normal _ _ Hv) as (v & _ & ->).
  assert (Hflag : flag ∈ FLAG_TYPES) by (apply list_elem_of_lookup; eauto).
  exists (spec_normalize (property_of v flag)). split.
  - rewrite normalized_from_lookup, decide_True by exact Hflag. reflexivity.
  - unfold formatResponse. rewrite list_lookup_fmap, Hi. cbn [fmap option_fmap option_map].
    rewrite normalized_from_lookup, decide_True by exact Hflag.
    rewrite (or_zero_two_decimals _ (spec_normalize_two_decimals _)).
    reflexivity.
Qed.

Lemma X20_format_after_normalize_witness :
  exists x,
    normalized_from (JObj [("toxicity", JStr "abc");
                           ("spam", JNum (of_decimal false 857 (-3)))])
      FLAG_TYPES ∅ !! "spam" = Some x /\
    formatResponse
      (normalized_from (JObj [("toxicity", JStr "abc");
                              ("spam", JNum (of_decimal false 857 (-3)))])
         FLAG_TYPES ∅) !! 5%nat = Some (record "spam" x).
Proof.
  apply (X20_format_after_normalize sample_payload).
  - vm_compute. reflexivity.
  - reflexivity.
Defined.

(** ** More on the classifier call *)

(** X21. [analyzeContentWithAI] makes one classifier call and nothing
    else.  What it returns is a complete score mapping: the six flag types
    with values in [0,1].  What it throws is the error of the request or
    of the reading of the reply, unchanged, or "Invalid AI response
    format" for a reply whose content the normalizer rejects. *)
Theorem X21_analyzeContentWithAI (env : Env) (content : JSValue) (w : World) :
  snd (analyzeContentWithAI env content w) = emit (ClassifierCall content) w /\
  match fst (analyzeContentWithAI env content w) with
  | Normal scores =>
      dom scores = list_to_set FLAG_TYPES /\ score_mapping scores
  | Throw e =>
      classifier env content = RequestFails e \/
      classifier env content = ReplyWithoutContent e \/
      (exists aiResponse, classifier env content = ReplyContent aiResponse /\
                          e = Error "Invalid AI response format")
  end.
Proof.
  rewrite analyzeContentWithAI_eq. cbn [fst snd]. split; [reflexivity |].
  unfold classified. destruct (classifier env content) as [e | e | s]; auto.
  destruct (parseAndValidateScores s) as [scores | e] eqn:Hp.
  - split; [| exact (parseAndValidateScores_score_mapping _ _ Hp)].
    destruct (parseAndValidateScores_normal _ _ Hp) as (v & _ & ->).
    rewrite normalized_from_dom, dom_empty_L. apply (left_id_L ∅ (∪)).
  - right. right. exists s. split; [reflexivity |].
    destruct (JSON.parse s) as [v | e'] eqn:Hj.
    + destruct (readable v) eqn:Hr.
      * rewrite (parseAndValidateScores_readable _ _ Hj Hr) in Hp.
        destruct (convertible v FLAG_TYPES); congruence.
      * rewrite (parseAndValidateScores_unreadable _ _ Hj Hr) in Hp. congruence.
    + rewrite (parseAndValidateScores_syntax _ _ Hj) in Hp. congruence.
Qed.
